(** * Fetch Retry: the retry, backoff and timeout engine of [index.js]

    A shallow embedding of the decision engine of the SillyTavern
    "Fetch Retry" extension: [getRetryDelay], [handleRetry],
    [isResponseInvalid], [showErrorNotification] and the retry loop of the
    patched [window.fetch].

    Modelling choices.
    - JavaScript numbers that only count or are only compared (HTTP status,
      [maxRetries], the two timeouts, the attempt counter) are integers.
      The three delay settings and every computed delay are exact rationals
      ([Q]): [Math.pow(1.5, attempt)] is [(3#2)^attempt] and
      [Math.pow(1.2, attempt)] is [(6#5)^attempt]; the rounding of IEEE
      doubles is not modelled.
    - The platform is an oracle ([world]): for each attempt it says what the
      native [fetch] settles with, how long that takes, what the race
      rejects with when the thinking timer fires first, and whether the
      caller's signal is aborted at the two places where the loop reads it.
    - Effects visible outside the call (native fetch calls, toasts, waits)
      are recorded in a trace of [event]s. *)

From Stdlib Require Import ZArith QArith Qminmax Qpower Lia.
From Stdlib Require Import Bool List String Ascii DecimalString.
Import ListNotations.

Local Open Scope Z_scope.

(** ** JavaScript primitives used by the source *)

Module JS.

Local Open Scope string_scope.
Local Open Scope Z_scope.

(** [StrWhiteSpaceChar] among the code points 0 to 255, the only ones a
    header value holds: tab, line feed, vertical tab, form feed, carriage
    return, space and no-break space. *)
Definition is_white_space (c : ascii) : bool :=
  match nat_of_ascii c with
  | 9%nat | 10%nat | 11%nat | 12%nat | 13%nat | 32%nat | 160%nat => true
  | _ => false
  end.

Fixpoint trim_start (s : string) : string :=
  match s with
  | String c rest => if is_white_space c then trim_start rest else s
  | EmptyString => s
  end.

(** Value of a character as a digit (0-9, a-z, A-Z), if it is one. *)
Definition digit_value (c : ascii) : option Z :=
  let n := Z.of_nat (nat_of_ascii c) in
  if (48 <=? n) && (n <=? 57) then Some (n - 48)
  else if (97 <=? n) && (n <=? 122) then Some (n - 87)
  else if (65 <=? n) && (n <=? 90) then Some (n - 55)
  else None.

(** Longest prefix of radix-[R] digits; [acc] is [None] until a digit
    has been read. *)
Fixpoint parse_digits (R : Z) (acc : option Z) (s : string) : option Z :=
  match s with
  | EmptyString => acc
  | String c rest =>
      match digit_value c with
      | Some d =>
          if d <? R
          then parse_digits R (Some (match acc with
                                     | Some a => a * R + d
                                     | None => d
                                     end)) rest
          else acc
      | None => acc
      end
  end.

Definition strip_sign (s : string) : Z * string :=
  match s with
  | String "-" rest => (-1, rest)
  | String "+" rest => (1, rest)
  | _ => (1, s)
  end.

Definition strip_hex_prefix (s : string) : Z * string :=
  match s with
  | String "0" (String "x" rest) => (16, rest)
  | String "0" (String "X" rest) => (16, rest)
  | _ => (10, s)
  end.

(** [parseInt(string)] with no radix argument; [None] is [NaN]. *)
Definition parseInt (s : string) : option Z :=
  let '(sign, s1) := strip_sign (trim_start s) in
  let '(R, s2) := strip_hex_prefix s1 in
  match parse_digits R None s2 with
  | Some n => Some (sign * n)
  | None => None
  end.

(** [hay.includes(needle)] *)
Fixpoint includes (hay needle : string) : bool :=
  if prefix needle hay then true
  else match hay with
       | EmptyString => false
       | String _ rest => includes rest needle
       end.

Definition lower_ascii (c : ascii) : ascii :=
  let n := nat_of_ascii c in
  if (65 <=? n)%nat && (n <=? 90)%nat then ascii_of_nat (n + 32) else c.

Fixpoint toLowerCase (s : string) : string :=
  match s with
  | EmptyString => EmptyString
  | String c rest => String (lower_ascii c) (toLowerCase rest)
  end.

(** Template-literal rendering of an integer, [`${n}`]. *)
Definition string_of_Z (n : Z) : string :=
  NilZero.string_of_int (Z.to_int n).

Fixpoint join (sep : string) (l : list string) : string :=
  match l with
  | [] => ""
  | [x] => x
  | x :: rest => x ++ sep ++ join sep rest
  end.

End JS.

(** ** Responses and errors *)

(** A [Headers] object: names are matched case-insensitively and the
    values of repeated names are joined with a comma and a space. *)
Definition Headers := list (string * string).

Definition header_values (h : Headers) (name : string) : list string :=
  map snd
      (filter (fun kv => String.eqb (JS.toLowerCase (fst kv)) (JS.toLowerCase name)) h).

Definition headers_has (h : Headers) (name : string) : bool :=
  negb (Nat.eqb (List.length (header_values h name)) 0).

Definition headers_get (h : Headers) (name : string) : option string :=
  match header_values h name with
  | [] => None
  | vs => Some (JS.join ", " vs)
  end.

(** The part of a [Response] that the engine reads; the body is left
    out, no function of the engine looks at it. *)
Record Response := mkResponse {
  status : Z;
  statusText : string;
  headers : Headers
}.

(** [response.ok]: the status is in the range 200-299. *)
Definition ok (r : Response) : bool :=
  (200 <=? status r) && (status r <=? 299).

(** A thrown value as the loop sees it: its [name] and [message]
    properties, [None] when the property is undefined. *)
Record JsError := mkError {
  err_name : option string;
  err_message : option string
}.

(** [new Error(message)] *)
Definition Error (message : string) : JsError :=
  mkError (Some "Error"%string) (Some message).

(** [new DOMException(message, name)] *)
Definition DOMException (message name : string) : JsError :=
  mkError (Some name) (Some message).

Definition name_is (e : JsError) (n : string) : bool :=
  match err_name e with
  | Some m => String.eqb m n
  | None => false
  end.

Definition message_is (e : JsError) (n : string) : bool :=
  match err_message e with
  | Some m => String.eqb m n
  | None => false
  end.

(** ** Settings *)

Module Cfg.

(** The fields of [fetchRetrySettings]. *)
Record t := mk {
  enabled : bool;
  maxRetries : Z;
  retryDelay : Q;
  rateLimitDelay : Q;
  thinkingTimeout : Z;
  enableThinkingTimeout : bool;
  showErrorNotification : bool;
  streamInactivityTimeout : Z;
  minRetryDelay : Q;
  debugMode : bool
}.

(** The initial value of [fetchRetrySettings]. *)
Definition default : t :=
  {| enabled := true;
     maxRetries := 5;
     retryDelay := 5000;
     rateLimitDelay := 5000;
     thinkingTimeout := 60000;
     enableThinkingTimeout := true;
     showErrorNotification := true;
     streamInactivityTimeout := 30000;
     minRetryDelay := 0;
     debugMode := false |}.

End Cfg.

(** ** The delay calculator *)

Section DelayCalculator.

Variable settings : Cfg.t.

Local Open Scope Q_scope.

(** The [Retry-After] step of [getRetryDelay]. *)
Definition retryAfterFloor (delay : Q) (response : option Response) : Q :=
  match response with
  | Some r =>
      if headers_has (headers r) "Retry-After" then
        match headers_get (headers r) "Retry-After" with
        | Some retryAfter =>
            match JS.parseInt retryAfter with
            | Some seconds =>
                Qmax delay (Qmin (inject_Z seconds * 1000) 30000)
            | None => delay
            end
        | None => delay
        end
      else delay
  | None => delay
  end.

(** The 429 step of [getRetryDelay]. *)
Definition rateLimitFloor (delay : Q) (response : option Response)
           (attempt : nat) : Q :=
  match response with
  | Some r =>
      if (status r =? 429)%Z
      then Qmax delay (Cfg.rateLimitDelay settings * (3#2) ^ Z.of_nat attempt)
      else delay
  | None => delay
  end.

Definition getRetryDelay (error : JsError) (response : option Response)
           (attempt : nat) : Q :=
  let delay := Cfg.minRetryDelay settings in
  let delay := retryAfterFloor delay response in
  let delay := rateLimitFloor delay response attempt in
  Qmax delay (Cfg.retryDelay settings * (6#5) ^ Z.of_nat attempt).

End DelayCalculator.

(** ** Notifications and the stream check *)

(** What a call does to the outside, in order. *)
Inductive event :=
| EvFetch (attempt : nat)
    (* originalFetch.apply(this, [currentUrl, currentInit]) *)
| EvBypass
    (* originalFetch.apply(this, args) *)
| EvRetryToast (attempt : nat) (maxRetries : Z) (error : JsError)
    (* showRetryToast(attempt, maxRetries, error) *)
| EvWait (delay : Q)
    (* await new Promise(resolve => setTimeout(resolve, delay)): [delay]
       is the argument handed to setTimeout, not the time that passes *)
| EvErrorNotification (error : option JsError) (response : option Response).
    (* showErrorNotification(lastError, lastResponse) *)

(** [handleRetry]: the toast (only when [attempt > 0]), the wait, and the
    incremented attempt number. *)
Definition handleRetry (settings : Cfg.t) (error : JsError)
           (response : option Response) (attempt : nat) : list event * nat :=
  let toast :=
    if (0 <? attempt)%nat
    then [EvRetryToast attempt (Cfg.maxRetries settings) error]
    else [] in
  let delay := getRetryDelay settings error response attempt in
  (toast ++ [EvWait delay], S attempt).

(** The text chosen by [showErrorNotification]. *)
Definition errorNotificationMessage (error : option JsError)
           (response : option Response) : string :=
  match response with
  | Some r =>
      if status r =? 429 then "Rate limited (429): Too many requests"%string
      else if 500 <=? status r then
        ("Server error (" ++ JS.string_of_Z (status r) ++ "): " ++ statusText r)%string
      else if status r =? 403 then "Forbidden (403): Access denied"%string
      else ("HTTP " ++ JS.string_of_Z (status r) ++ ": " ++ statusText r)%string
  | None =>
      match error with
      | Some e =>
          if name_is e "TimeoutError"
          then "Timeout: AI thinking process exceeded limit"%string
          else if name_is e "AbortError" then "Request aborted"%string
          else ("Network error: " ++
                match err_message e with Some m => m | None => "undefined" end)%string
      | None => "Fetch failed after all retries"%string
      end
  end.

(** [showErrorNotification]: the message displayed, [None] when the
    notifications are switched off. *)
Definition showErrorNotification (settings : Cfg.t) (error : option JsError)
           (response : option Response) : option string :=
  if negb (Cfg.showErrorNotification settings) then None
  else Some (errorNotificationMessage error response).

Record Validity := mkValidity {
  invalid : bool;
  reason : string
}.

Definition generationEndpoints : list string :=
  ["/completion"; "/generate"; "/chat/completions"; "/run/predict"]%string.

Definition isGenerationUrl (url : string) : bool :=
  existsb (fun endpoint => JS.includes url endpoint) generationEndpoints.

(** Truthiness of the module-level [streamTimeoutId] ([None] is [null]). *)
Definition truthy_id (id : option Z) : bool :=
  match id with
  | Some n => negb (n =? 0)
  | None => false
  end.

(** The [try] block of [isResponseInvalid]: it only reads
    [streamTimeoutId], so it completes ([inl]) and never throws ([inr]). *)
Definition streamCheck (streamTimeoutId : option Z) : option Validity + JsError :=
  if truthy_id streamTimeoutId
  then inl (Some (mkValidity false ""))
  else inl None.

Definition isResponseInvalid (settings : Cfg.t) (streamTimeoutId : option Z)
           (response : Response) (url : string) : Validity :=
  if Cfg.streamInactivityTimeout settings =? 0 then mkValidity false ""
  else if negb (isGenerationUrl url) then mkValidity false ""
  else
    match streamCheck streamTimeoutId with
    | inl (Some v) => v
    | inl None => mkValidity false ""
    | inr err =>
        if message_is err "Stream inactivity timeout"
        then mkValidity true "stream_inactivity"
        else mkValidity false ""
    end.

(** ** The platform seen by one call *)

Inductive settled :=
| Resolved (r : Response)
| Rejected (e : JsError).

(** What happens around one attempt. *)
Record attempt_env := mkAttempt {
  aborted_at_start : bool;   (* originalSignal?.aborted at the loop top *)
  native : settled;          (* how the native fetch settles when left alone *)
  latency : Z;               (* ms until the native fetch settles *)
  aborted_at_catch : bool;   (* originalSignal?.aborted in the catch block *)
  timer_rejection : JsError  (* what the race rejects with when the timer
                                fires first *)
}.

Record world := mkWorld {
  url : string;
  aborted_at_entry : bool;   (* originalSignal?.aborted before the loop *)
  streamTimeoutId : option Z;
  attempts : nat -> attempt_env
}.

(** ** The attempt executor *)

(** The timer armed for an attempt: [None] when [timeoutPromise] stays
    [null], otherwise the delay handed to [setTimeout]. *)
Definition thinkingTimer (settings : Cfg.t) : option Z :=
  if Cfg.enableThinkingTimeout settings
  then Some (Cfg.thinkingTimeout settings)
  else None.

(** The error that the timer callback builds. *)
Definition TimeoutError : JsError :=
  mkError (Some "TimeoutError"%string) (Some "Thinking timeout reached"%string).

(** The rejection of a native fetch whose signal is aborted without a
    reason, as by the timer callback: a [DOMException] named
    [AbortError]; the text of its message is the platform's. *)
Definition timerAbortError : JsError :=
  DOMException "signal is aborted without reason" "AbortError".

(** The delay that [setTimeout] takes from its argument: the argument is
    read as a 32-bit signed integer, wrapping around, and a negative
    result counts as 0.  So a delay above 2^31 - 1 ms does not wait that
    long: up to 2^32 - 1 it fires at once. *)
Definition timerDelay (ms : Z) : Z :=
  Z.max 0 ((ms + 2147483648) mod 4294967296 - 2147483648).

(** [Promise.race([fetchPromise, timeoutPromise])], or [fetchPromise] alone
    when no timer is armed.  The timer wins when it fires strictly before
    the native fetch settles.  Its callback first aborts the signal of the
    attempt ([controller.abort()]) and then rejects [timeoutPromise] with
    [TimeoutError]: a native fetch that honours its signal is rejected by
    the abort, with an [AbortError], before [timeoutPromise] is, and
    since [fetchPromise] comes first in the race that rejection settles
    it; only a fetch that ignores the abort leaves the race to
    [TimeoutError].  Which of the two happens is the platform's, given by
    [timer_rejection]. *)
Definition raceAttempt (settings : Cfg.t) (a : attempt_env) : settled :=
  match thinkingTimer settings with
  | Some t =>
      if timerDelay t <? latency a then Rejected (timer_rejection a)
      else native a
  | None => native a
  end.

(** ** The retry loop of [window.fetch] *)

Record loop_state := mkState {
  attempt : nat;
  lastError : option JsError;
  lastResponse : option Response
}.

Inductive control :=
| Continue (st : loop_state)
| Break (st : loop_state)
| Return (r : Response)
| Throw (e : JsError).

Inductive result :=
| Returned (r : Response)
| Thrown (e : option JsError)    (* [None]: [throw undefined] *)
| OutOfFuel.

Definition abortError : JsError :=
  DOMException "Request aborted by user" "AbortError".

(** The test that separates the caller's abort from any other rejection
    named [AbortError]. *)
Definition isUserAbort (a : attempt_env) (err : JsError) : bool :=
  aborted_at_catch a
  || message_is err "User aborted"
  || message_is err "Request aborted by user".

(** The rejections that the [catch] block rethrows at once: not a
    [TimeoutError], named [AbortError], and caused by the caller. *)
Definition propagatesAbort (a : attempt_env) (err : JsError) : bool :=
  if name_is err "TimeoutError" then false
  else if name_is err "AbortError" then isUserAbort a err
  else false.

Section Orchestrator.

Variable settings : Cfg.t.
Variable w : world.

Definition set_attempt (st : loop_state) (n : nat) : loop_state :=
  mkState n (lastError st) (lastResponse st).

(** The [catch] block; [st] is the loop state when the error is caught. *)
Definition catchBlock (a : attempt_env) (st : loop_state) (err : JsError)
  : list event * control :=
  let st := mkState (attempt st) (Some err) (lastResponse st) in
  if propagatesAbort a err
  then ([], Throw err)
  else if Cfg.maxRetries settings <=? Z.of_nat (attempt st)
  then ([], Break st)
  else
    let '(evs, next) := handleRetry settings err (lastResponse st) (attempt st) in
    (evs, Continue (set_attempt st next)).

(** A retry decided inside the [try] block: [handleRetry], then [continue]. *)
Definition retryWith (st : loop_state) (error : JsError) (response : Response)
  : list event * control :=
  let '(evs, next) := handleRetry settings error (Some response) (attempt st) in
  (evs, Continue (set_attempt st next)).

(** The [try] block once the race has resolved with [result]. *)
Definition onResolved (a : attempt_env) (st : loop_state) (result : Response)
  : list event * control :=
  let st := mkState (attempt st) (lastError st) (Some result) in
  let more := Z.of_nat (attempt st) <? Cfg.maxRetries settings in
  if ok result then
    let v := isResponseInvalid settings (streamTimeoutId w) result (url w) in
    if invalid v && more
    then retryWith st (Error ("Response invalid: " ++ reason v)) result
    else ([], Return result)
  else if status result =? 429 then
    let error := Error ("Rate limited (429): " ++ statusText result) in
    if more then retryWith st error result
    else ([], Break (mkState (attempt st) (Some error) (Some result)))
  else if 500 <=? status result then
    let error :=
      Error ("Server error (" ++ JS.string_of_Z (status result) ++ "): "
             ++ statusText result) in
    if more then retryWith st error result
    else ([], Break (mkState (attempt st) (Some error) (Some result)))
  else if 400 <=? status result then ([], Return result)
  else
    catchBlock a st
      (Error ("HTTP " ++ JS.string_of_Z (status result) ++ ": " ++ statusText result)).

(** One iteration of the [while] loop. *)
Definition loopBody (st : loop_state) : list event * control :=
  let a := attempts w (attempt st) in
  if aborted_at_start a then ([], Throw abortError)
  else
    let '(evs, c) :=
      match raceAttempt settings a with
      | Resolved result => onResolved a st result
      | Rejected err => catchBlock a st err
      end in
    (EvFetch (attempt st) :: evs, c).

(** The code after the loop. *)
Definition afterLoop (st : loop_state) : list event * result :=
  ([EvErrorNotification (lastError st) (lastResponse st)], Thrown (lastError st)).

Definition prepend (evs : list event) (r : list event * result)
  : list event * result :=
  (evs ++ fst r, snd r).

(** [while (attempt <= fetchRetrySettings.maxRetries) { ... }] followed by
    the code after it; [fuel] bounds the number of iterations. *)
Fixpoint fetchLoop (fuel : nat) (st : loop_state) : list event * result :=
  if Z.of_nat (attempt st) <=? Cfg.maxRetries settings then
    match fuel with
    | O => ([], OutOfFuel)
    | S fuel' =>
        let '(evs, c) := loopBody st in
        match c with
        | Continue st' => prepend evs (fetchLoop fuel' st')
        | Break st' => prepend evs (afterLoop st')
        | Return r => (evs, Returned r)
        | Throw e => (evs, Thrown (Some e))
        end
    end
  else afterLoop st.

(** [originalFetch.apply(this, args)]: the native call, untouched. *)
Definition bypass : list event * result :=
  ([EvBypass],
   match native (attempts w 0) with
   | Resolved r => Returned r
   | Rejected e => Thrown (Some e)
   end).

Definition initial_state : loop_state := mkState 0 None None.

(** The patched [window.fetch]. *)
Definition windowFetch : list event * result :=
  if negb (Cfg.enabled settings) then bypass
  else if aborted_at_entry w then bypass
  else fetchLoop (Z.to_nat (Cfg.maxRetries settings + 1)) initial_state.

End Orchestrator.

(** ** Reading a trace *)

Definition is_retry_toast (e : event) : bool :=
  match e with EvRetryToast _ _ _ => true | _ => false end.

Definition is_error_notification (e : event) : bool :=
  match e with EvErrorNotification _ _ => true | _ => false end.

(** A call of the native [fetch], from the loop or as a bypass. *)
Definition is_native_call (e : event) : bool :=
  match e with EvFetch _ | EvBypass => true | _ => false end.

Definition count (p : event -> bool) (tr : list event) : nat :=
  List.length (filter p tr).

(** The delays waited in a trace, as reduced fractions. *)
Definition waits (tr : list event) : list Q :=
  flat_map (fun e => match e with EvWait d => [Qred d] | _ => [] end) tr.

(** The attempt numbers of the native calls of a trace. *)
Definition fetches (tr : list event) : list nat :=
  flat_map (fun e => match e with EvFetch k => [k] | _ => [] end) tr.

(** ** Vocabulary of the specification *)

(** Status in [400,429) or (429,500). *)
Definition clientError (r : Response) : bool :=
  (400 <=? status r) && (status r <? 500) && negb (status r =? 429).

(** Neither 2xx nor 4xx nor 5xx. *)
Definition unexpectedStatus (r : Response) : bool :=
  negb (ok r) && (status r <? 400).

(** An attempt that fails with a retryable outcome: the caller has not
    aborted, and the attempt ends in a 429, a 5xx, a status outside
    2xx/4xx/5xx, or a rejection that is not the caller's abort (timeout,
    network failure). *)
Definition retryableFailure (settings : Cfg.t) (a : attempt_env) : bool :=
  negb (aborted_at_start a)
  && match raceAttempt settings a with
     | Resolved r => (status r =? 429) || (500 <=? status r) || unexpectedStatus r
     | Rejected e => negb (propagatesAbort a e)
     end.

(** The error that the loop builds or catches for a failed attempt. *)
Definition failureError (o : settled) : JsError :=
  match o with
  | Resolved r =>
      if status r =? 429
      then Error ("Rate limited (429): " ++ statusText r)
      else if 500 <=? status r
      then Error ("Server error (" ++ JS.string_of_Z (status r) ++ "): "
                  ++ statusText r)
      else Error ("HTTP " ++ JS.string_of_Z (status r) ++ ": " ++ statusText r)
  | Rejected e => e
  end.

(** The response handed to [handleRetry] after a failed attempt: the
    attempt's own response when it resolved, otherwise whatever
    [lastResponse] holds from earlier attempts. *)
Definition responseForDelay (st : loop_state) (o : settled) : option Response :=
  match o with
  | Resolved r => Some r
  | Rejected _ => lastResponse st
  end.

(** [lastError] after a failed attempt that is retried: only the [catch]
    block records the error before the retry. *)
Definition lastErrorOnRetry (st : loop_state) (o : settled) : option JsError :=
  match o with
  | Resolved r =>
      if (status r =? 429) || (500 <=? status r) then lastError st
      else Some (failureError o)
  | Rejected e => Some e
  end.

(** The seconds announced by a [Retry-After] header that parses. *)
Definition retryAfterSeconds (response : option Response) : option Z :=
  match response with
  | Some r =>
      match headers_get (headers r) "Retry-After" with
      | Some v => JS.parseInt v
      | None => None
      end
  | None => None
  end.

Definition isRateLimited (response : option Response) : bool :=
  match response with
  | Some r => status r =? 429
  | None => false
  end.


(** The caller's signal is aborted from the top of iteration [j] on. *)
Definition aborted_from (w : world) (j : nat) : Prop :=
  forall k, (j <= k)%nat -> aborted_at_start (attempts w k) = true.


(** The gate of the timeout race as the specification words it. *)
Definition specTimerGate (settings : Cfg.t) : bool :=
  Cfg.enableThinkingTimeout settings && (0 <? Cfg.thinkingTimeout settings).

(** ** Sample responses, settings and worlds *)

Definition response_of (st : Z) (text : string) : Response :=
  mkResponse st text [].

Definition r200 : Response := response_of 200 "OK".
Definition r403 : Response := response_of 403 "Forbidden".
Definition r429 : Response := response_of 429 "Too Many Requests".
Definition r503 : Response := response_of 503 "Service Unavailable".
Definition r304 : Response := response_of 304 "Not Modified".

Definition r429_retry_after_20 : Response :=
  mkResponse 429 "Too Many Requests" [("Retry-After", "20")]%string.

Definition r503_retry_after_10 : Response :=
  mkResponse 503 "Service Unavailable" [("retry-after", "10")]%string.

Definition networkError : JsError :=
  mkError (Some "TypeError"%string) (Some "Failed to fetch"%string).

(** A world whose attempts settle, in order, as [script] says and then
    as [rest]; the caller never aborts and every attempt takes 100 ms. *)
Definition scripted (u : string) (script : list settled) (rest : settled) : world :=
  mkWorld u false None
          (fun k => mkAttempt false (nth k script rest) 100 false timerAbortError).

Definition with_thinkingTimeout (t : Z) (s : Cfg.t) : Cfg.t :=
  Cfg.mk (Cfg.enabled s) (Cfg.maxRetries s) (Cfg.retryDelay s)
         (Cfg.rateLimitDelay s) t (Cfg.enableThinkingTimeout s)
         (Cfg.showErrorNotification s) (Cfg.streamInactivityTimeout s)
         (Cfg.minRetryDelay s) (Cfg.debugMode s).

(** The policy of the 429 scenario; the other fields are the defaults. *)
Definition scenarioSettings : Cfg.t :=
  Cfg.mk true 2 1000 1000 60000 true true 30000 0 false.

(** Three attempts that fail in three ways: a 503, a network failure,
    a 429. *)
Definition failingWorld : world :=
  scripted "/api/backends/chat-completions/generate"
           [Resolved r503; Rejected networkError; Resolved r429] (Resolved r200).

Definition scenarioWorld : world :=
  scripted "/api/backends/chat-completions/generate"
           [Resolved r429; Resolved r429; Resolved r429] (Resolved r200).

(** The thinking timeout set to 0 with its checkbox left on. *)
Definition zeroTimeoutSettings : Cfg.t := with_thinkingTimeout 0 Cfg.default.

(** A native fetch that answers 200 after 100 ms. *)
Definition promptOk : attempt_env :=
  mkAttempt false (Resolved r200) 100 false timerAbortError.

(** A 503 on the first attempt, then a 200. *)
Definition firstFailureWorld : world :=
  scripted "/api/backends/chat-completions/generate"
           [Resolved r503] (Resolved r200).

(** The abort reason of line 658, the string ['User aborted'], as the
    value that a native fetch rejects with when its signal is aborted
    with that reason: a string has no [name] and no [message]
    property. *)
Definition userAbortReason : JsError := mkError None None.

(** The caller aborts while the second attempt is in flight: the handler
    aborts the attempt with the reason ['User aborted'], the native fetch
    rejects with it, and the caller's signal stays aborted. *)
Definition abortedInFlight : world :=
  mkWorld "/api/backends/chat-completions/generate" false None
          (fun k =>
             match k with
             | O => mkAttempt false (Resolved r503) 100 false timerAbortError
             | S O => mkAttempt false (Rejected userAbortReason) 100 true
                                timerAbortError
             | _ => mkAttempt true (Rejected userAbortReason) 100 true
                              timerAbortError
             end).

(** A 429 announcing 20 seconds, then a network failure, then a 200. *)
Definition staleWorld : world :=
  scripted "/api/backends/chat-completions/generate"
           [Resolved r429_retry_after_20; Rejected networkError] (Resolved r200).

(** A 429 announcing 20 seconds, then a 304, then a 200. *)
Definition unexpectedStatusWorld : world :=
  scripted "/api/backends/chat-completions/generate"
           [Resolved r429_retry_after_20; Resolved r304] (Resolved r200).

(** ** The shape of a run of the loop *)

Definition is_wait (e : event) : bool :=
  match e with EvWait _ => true | _ => false end.

(** The runs of the loop from the top of iteration [k]: rounds made of a
    native call and [handleRetry] for consecutive attempts, closed by one
    of five endings. *)
Inductive run_shape (settings : Cfg.t) (w : world)
  : nat -> list event -> result -> Prop :=
| shape_no_iteration (k : nat) (e : option JsError) (r : option Response) :
    Cfg.maxRetries settings < Z.of_nat k ->
    run_shape settings w k [EvErrorNotification e r] (Thrown e)
| shape_abort_at_top (k : nat) :
    Z.of_nat k <= Cfg.maxRetries settings ->
    aborted_at_start (attempts w k) = true ->
    run_shape settings w k [] (Thrown (Some abortError))
| shape_return (k : nat) (r : Response) :
    Z.of_nat k <= Cfg.maxRetries settings ->
    aborted_at_start (attempts w k) = false ->
    raceAttempt settings (attempts w k) = Resolved r ->
    ok r || clientError r = true ->
    run_shape settings w k [EvFetch k] (Returned r)
| shape_rethrow (k : nat) (e : JsError) :
    Z.of_nat k <= Cfg.maxRetries settings ->
    aborted_at_start (attempts w k) = false ->
    raceAttempt settings (attempts w k) = Rejected e ->
    propagatesAbort (attempts w k) e = true ->
    run_shape settings w k [EvFetch k] (Thrown (Some e))
| shape_exhausted (k : nat) (r : option Response) :
    Z.of_nat k = Cfg.maxRetries settings ->
    retryableFailure settings (attempts w k) = true ->
    let err := failureError (raceAttempt settings (attempts w k)) in
    run_shape settings w k
              [EvFetch k; EvErrorNotification (Some err) r]
              (Thrown (Some err))
| shape_retry (k : nat) (response : option Response) (tr : list event)
              (res : result) :
    Z.of_nat k < Cfg.maxRetries settings ->
    retryableFailure settings (attempts w k) = true ->
    run_shape settings w (S k) tr res ->
    let err := failureError (raceAttempt settings (attempts w k)) in
    run_shape settings w k
              (EvFetch k :: fst (handleRetry settings err response k) ++ tr)
              res.

(** What [lastResponse] can hold when the loop goes on or is left by
    [break]: nothing, or a response that is neither a success nor a
    client error other than 429. *)
Definition retained (response : option Response) : Prop :=
  match response with
  | Some r => ok r = false /\ clientError r = false
  | None => True
  end.

(** The same response with its headers removed. *)
Definition without_headers (r : Response) : Response :=
  mkResponse (status r) (statusText r) [].

(** An ASCII letter. *)
Definition is_letter (c : ascii) : bool :=
  let n := nat_of_ascii c in
  ((65 <=? n)%nat && (n <=? 90)%nat) || ((97 <=? n)%nat && (n <=? 122)%nat).

(** The default settings with a negative retry count. *)
Definition negativeRetriesSettings : Cfg.t :=
  Cfg.mk true (-1) 5000 5000 60000 true true 30000 0 false.

(** A 503 that announces an hour of [Retry-After]. *)
Definition r503_retry_after_3600 : Response :=
  mkResponse 503 "Service Unavailable" [("Retry-After", "3600")]%string.

(** A 503 whose [Retry-After] is an HTTP date. *)
Definition r503_retry_after_date : Response :=
  mkResponse 503 "Service Unavailable"
             [("Retry-After", "Wed, 21 Oct 2015 07:28:00 GMT")]%string.

(** ** The settings objects *)

(** The functions that load and save the settings work on plain
    JavaScript objects whose values are not typed.  An object is the list
    of its own properties in insertion order; a value is kept as far as
    [Boolean(...)], [Number(...)] and [=== undefined] can tell values
    apart: an object or array is known by the number it converts to. *)

Inductive number :=
| NaN
| Finite (q : Q)
| Infinite (positive : bool).

Inductive value :=
| VUndefined
| VNull
| VBool (b : bool)
| VNumber (n : number)
| VString (s : string)
| VObject (toNumber : number).

Definition object := list (string * value).

(** [o[k]] *)
Fixpoint get (o : object) (k : string) : value :=
  match o with
  | [] => VUndefined
  | (k', v) :: rest => if String.eqb k' k then v else get rest k
  end.

(** [o[k] = v]: an existing property keeps its place, a new one goes
    last. *)
Fixpoint set (o : object) (k : string) (v : value) : object :=
  match o with
  | [] => [(k, v)]
  | (k', v') :: rest =>
      if String.eqb k' k then (k, v) :: rest else (k', v') :: set rest k v
  end.

(** [Object.keys(o)] *)
Definition keys (o : object) : list string := map fst o.

(** [v === undefined] *)
Definition is_undefined (v : value) : bool :=
  match v with VUndefined => true | _ => false end.

(** [Boolean(v)] *)
Definition Boolean (v : value) : bool :=
  match v with
  | VUndefined | VNull => false
  | VBool b => b
  | VNumber NaN => false
  | VNumber (Finite q) => negb (Qeq_bool q 0)
  | VNumber (Infinite _) => true
  | VString s => negb (String.eqb s "")
  | VObject _ => true
  end.

(** One entry of [customSettings]; the display text and the description
    are left out, the functions modelled here do not read them. *)
Record setting := mkSetting {
  type : string;
  varId : string;
  default : value;
  min : option Z;
  max : option Z;
  step : option Z
}.

Definition checkboxSetting (id : string) (d : bool) : setting :=
  mkSetting "checkbox" id (VBool d) None None None.

Definition sliderSetting (id : string) (d lo hi st : Z) : setting :=
  mkSetting "slider" id (VNumber (Finite (inject_Z d))) (Some lo) (Some hi) (Some st).

Definition customSettings : list setting :=
  [ checkboxSetting "enabled" true;
    sliderSetting "maxRetries" 5 0 10 1;
    sliderSetting "retryDelay" 5000 100 60000 100;
    sliderSetting "rateLimitDelay" 5000 1000 60000 1000;
    sliderSetting "thinkingTimeout" 60000 10000 300000 10000;
    checkboxSetting "enableThinkingTimeout" true;
    checkboxSetting "showErrorNotification" true;
    sliderSetting "streamInactivityTimeout" 30000 5000 120000 1000;
    sliderSetting "minRetryDelay" 0 0 5000 10;
    checkboxSetting "debugMode" false ]%string.

(** The object literal that [fetchRetrySettings] starts as. *)
Definition fetchRetrySettings0 : object :=
  [ ("enabled", VBool true);
    ("maxRetries", VNumber (Finite 5));
    ("retryDelay", VNumber (Finite 5000));
    ("rateLimitDelay", VNumber (Finite 5000));
    ("thinkingTimeout", VNumber (Finite 60000));
    ("enableThinkingTimeout", VBool true);
    ("showErrorNotification", VBool true);
    ("streamInactivityTimeout", VNumber (Finite 30000));
    ("minRetryDelay", VNumber (Finite 0));
    ("debugMode", VBool false) ]%string.

(** The entry of a table for a key, if it has one. *)
Definition entry_for (table : list setting) (k : string) : option setting :=
  find (fun e => String.eqb (varId e) k) table.

Section Settings.

(** The conversion of a string to a number is the platform's. *)
Variable StringToNumber : string -> number.

(** [Number(v)] *)
Definition Number (v : value) : number :=
  match v with
  | VUndefined => NaN
  | VNull => Finite 0
  | VBool b => if b then Finite 1 else Finite 0
  | VNumber n => n
  | VString s => StringToNumber s
  | VObject n => n
  end.

(** The [switch (type)] of [loadSettings]. *)
Definition coerce (e : setting) (loadedValue : value) : value :=
  if String.eqb (type e) "checkbox" then VBool (Boolean loadedValue)
  else if String.eqb (type e) "slider" then VNumber (Number loadedValue)
  else loadedValue.

(** The body of the [forEach] of [loadSettings], for one entry. *)
Definition loadSetting (settings : object) (current : object) (e : setting)
  : object :=
  if negb (is_undefined (get settings (varId e)))
  then set current (varId e) (coerce e (get settings (varId e)))
  else if is_undefined (get current (varId e))
  then set current (varId e) (default e)
  else current.

(** [loadSettings(settings)] as a change of [fetchRetrySettings], over any
    table; [None] is a falsy argument. *)
Definition loadSettingsFrom (table : list setting) (settings : option object)
           (current : object) : object :=
  match settings with
  | Some s => fold_left (loadSetting s) table current
  | None => current
  end.

Definition loadSettings (settings : option object) (current : object) : object :=
  loadSettingsFrom customSettings settings current.

(** What [loadSettings] leaves under the key of entry [e], given what the
    key held before. *)
Definition loadedValue (settings : object) (before : value) (e : setting)
  : value :=
  if negb (is_undefined (get settings (varId e)))
  then coerce e (get settings (varId e))
  else if is_undefined before then default e
  else before.

(** A snapshot whose checkbox keys hold booleans and whose slider keys
    hold numbers. *)
Definition well_typed (table : list setting) (o : object) : Prop :=
  forall e, In e table ->
            (type e = "checkbox"%string /\ exists b, get o (varId e) = VBool b)
            \/ (type e = "slider"%string /\ exists n, get o (varId e) = VNumber n).

End Settings.

(** [saveSettings()]: a copy of the current settings. *)
Definition saveSettings (current : object) : object := current.

(** [generateDefaultSettings()] *)
Definition generateDefaultSettings : object :=
  fold_left (fun settings e => set settings (varId e) (default e))
            customSettings [("enabled"%string, VBool true)].

Definition defaultSettings : object := generateDefaultSettings.

(** The loop of [initExtension] that gives the stored settings every key
    of [defaultSettings] they lack. *)
Definition ensureDefaults (stored : object) : object :=
  fold_left (fun o key =>
               if is_undefined (get o key)
               then set o key (get defaultSettings key)
               else o)
            (keys defaultSettings) stored.

(** The settings part of [initExtension]: the stored settings ([None]
    when the host has none) are completed, then loaded; the result is
    the stored object and the new [fetchRetrySettings]. *)
Definition initExtensionSettings (StringToNumber : string -> number)
           (stored : option object) (current : object) : object * object :=
  let stored :=
    match stored with
    | Some o => o
    | None => defaultSettings
    end in
  let stored := ensureDefaults stored in
  (stored, loadSettings StringToNumber (Some stored) current).

(** What [applyAllSettings] does to [fetchRetrySettings]: every key of
    the table takes the stored value as it is.  The updates of the page
    elements, which read the same stored values, are not part of this
    model. *)
Definition applyAllSettingsFrom (table : list setting) (stored current : object)
  : object :=
  fold_left (fun o e => set o (varId e) (get stored (varId e))) table current.

Definition applyAllSettings (stored current : object) : object :=
  applyAllSettingsFrom customSettings stored current.

(** A conversion of strings for the examples: it reads the empty string
    as 0 and a string of decimal digits as its value, and nothing else. *)
Definition digitsToNumber (s : string) : number :=
  if String.eqb s "" then Finite 0
  else if forallb (fun c => match JS.digit_value c with
                            | Some d => d <? 10
                            | None => false
                            end)
                  (list_ascii_of_string s)
  then match JS.parse_digits 10 None s with
       | Some n => Finite (inject_Z n)
       | None => NaN
       end
  else NaN.

(** Stored settings with a retry count beyond the slider, a number kept
    as a string and no other key. *)
Definition sparseStore : object :=
  [ ("maxRetries", VNumber (Finite 1000));
    ("retryDelay", VString "250");
    ("unrelated", VString "kept") ]%string.

(** The response of the most recent of the attempts [0 .. n-1] that
    resolved, if any did. *)
Fixpoint latestResponse (settings : Cfg.t) (w : world) (n : nat)
  : option Response :=
  match n with
  | O => None
  | S m =>
      match raceAttempt settings (attempts w m) with
      | Resolved r => Some r
      | Rejected _ => latestResponse settings w m
      end
  end.

(** The default settings with a single retry. *)
Definition oneRetrySettings : Cfg.t :=
  Cfg.mk true 1 5000 5000 60000 true true 30000 0 false.


(** A 503, then the caller aborts during the wait that follows. *)
Definition abortedWhileWaiting : world :=
  mkWorld "/api/backends/chat-completions/generate" false None
          (fun k =>
             match k with
             | O => mkAttempt false (Resolved r503) 100 false timerAbortError
             | _ => mkAttempt true (Resolved r200) 100 true timerAbortError
             end).

(** * Properties *)

(** ** Primitives on sample inputs *)

Example parseInt_seconds : JS.parseInt "10" = Some 10.
Proof. reflexivity. Qed.

Example parseInt_negative_with_suffix : JS.parseInt "  -5s" = Some (-5).
Proof. reflexivity. Qed.

Example parseInt_http_date : JS.parseInt "Wed, 21 Oct 2015 07:28:00 GMT" = None.
Proof. reflexivity. Qed.

Example parseInt_hex : JS.parseInt "0x1f" = Some 31.
Proof. reflexivity. Qed.

Example string_of_status : JS.string_of_Z 503 = "503"%string.
Proof. reflexivity. Qed.

Example generation_url :
  isGenerationUrl "/api/backends/chat-completions/generate" = true.
Proof. reflexivity. Qed.

Example exhausted_429_message :
  showErrorNotification Cfg.default
    (Some (Error "Rate limited (429): Too Many Requests")) (Some r429)
  = Some "Rate limited (429): Too many requests"%string.
Proof. reflexivity. Qed.

Example header_lookup_ignores_case :
  headers_get (headers r503_retry_after_10) "Retry-After" = Some "10"%string.
Proof. reflexivity. Qed.

(** ** The delay calculator *)

Section DelayFacts.

Variable settings : Cfg.t.

Local Open Scope Q_scope.

Lemma headers_has_get (h : Headers) (name : string) :
  headers_has h name = true <-> headers_get h name <> None.
Proof.
  unfold headers_has, headers_get.
  destruct (header_values h name); simpl; split; congruence.
Qed.

(** The header step of the code reads the header only once it has tested
    its presence; the outcome is the one of a single lookup. *)
Lemma retryAfterFloor_seconds (delay : Q) (response : option Response) :
  retryAfterFloor delay response =
  match retryAfterSeconds response with
  | Some seconds => Qmax delay (Qmin (inject_Z seconds * 1000) 30000)
  | None => delay
  end.
Proof.
  destruct response as [r|]; simpl; [|reflexivity].
  destruct (headers_has (headers r) "Retry-After") eqn:Hhas.
  - destruct (headers_get (headers r) "Retry-After"); reflexivity.
  - destruct (headers_get (headers r) "Retry-After") eqn:Hget; [|reflexivity].
    assert (headers_has (headers r) "Retry-After" = true) as Habs
        by (apply headers_has_get; congruence).
    congruence.
Qed.

Lemma rateLimitFloor_isRateLimited (delay : Q) (response : option Response)
      (attempt : nat) :
  rateLimitFloor settings delay response attempt =
  if isRateLimited response
  then Qmax delay (Cfg.rateLimitDelay settings * (3#2) ^ Z.of_nat attempt)
  else delay.
Proof. destruct response; reflexivity. Qed.


Lemma rateLimitFloor_ge (delay : Q) (response : option Response) (attempt : nat) :
  delay <= rateLimitFloor settings delay response attempt.
Proof.
  rewrite rateLimitFloor_isRateLimited.
  destruct (isRateLimited response).
  - apply Q.le_max_l.
  - apply Qle_refl.
Qed.


Lemma getRetryDelay_ge_retryAfter (error : JsError) (response : option Response)
      (attempt : nat) (seconds : Z) :
  retryAfterSeconds response = Some seconds ->
  Qmin (inject_Z seconds * 1000) 30000
  <= getRetryDelay settings error response attempt.
Proof.
  intros Hsec. unfold getRetryDelay.
  eapply Qle_trans; [|apply Q.le_max_l].
  eapply Qle_trans; [|apply rateLimitFloor_ge].
  rewrite retryAfterFloor_seconds, Hsec.
  apply Q.le_max_r.
Qed.

Lemma getRetryDelay_ge_rateLimit (error : JsError) (r : Response) (attempt : nat) :
  status r = 429%Z ->
  Cfg.rateLimitDelay settings * (3#2) ^ Z.of_nat attempt
  <= getRetryDelay settings error (Some r) attempt.
Proof.
  intros H429. unfold getRetryDelay.
  eapply Qle_trans; [|apply Q.le_max_l].
  simpl. rewrite H429. simpl.
  apply Q.le_max_r.
Qed.



End DelayFacts.





(** ** One iteration of the loop *)

Section LoopFacts.

Variable settings : Cfg.t.
Variable w : world.

Lemma fetches_app (tr1 tr2 : list event) :
  fetches (tr1 ++ tr2) = fetches tr1 ++ fetches tr2.
Proof. apply flat_map_app. Qed.

Lemma count_app (p : event -> bool) (tr1 tr2 : list event) :
  count p (tr1 ++ tr2) = (count p tr1 + count p tr2)%nat.
Proof. unfold count. rewrite filter_app, length_app. reflexivity. Qed.

(** [handleRetry] emits the toast exactly when [attempt > 0], then waits
    the computed delay, and returns the next attempt number. *)
Lemma handleRetry_events (error : JsError) (response : option Response)
      (k : nat) :
  handleRetry settings error response k =
  (match k with
   | O => [EvWait (getRetryDelay settings error response k)]
   | S _ => [EvRetryToast k (Cfg.maxRetries settings) error;
             EvWait (getRetryDelay settings error response k)]
   end, S k).
Proof. destruct k; reflexivity. Qed.

Lemma handleRetry_fetches (error : JsError) (response : option Response)
      (k : nat) :
  fetches (fst (handleRetry settings error response k)) = [].
Proof. rewrite handleRetry_events. destruct k; reflexivity. Qed.

Lemma handleRetry_no_error_notification (error : JsError)
      (response : option Response) (k : nat) :
  count is_error_notification (fst (handleRetry settings error response k)) = 0%nat.
Proof. rewrite handleRetry_events. destruct k; reflexivity. Qed.

Lemma loopBody_aborted (st : loop_state) :
  aborted_at_start (attempts w (attempt st)) = true ->
  loopBody settings w st = ([], Throw abortError).
Proof. intros H. unfold loopBody. rewrite H. reflexivity. Qed.

Lemma catchBlock_retry (a : attempt_env) (st : loop_state) (err : JsError) :
  propagatesAbort a err = false ->
  catchBlock settings a st err =
  if Z.of_nat (attempt st) <? Cfg.maxRetries settings
  then (fst (handleRetry settings err (lastResponse st) (attempt st)),
        Continue (mkState (S (attempt st)) (Some err) (lastResponse st)))
  else ([], Break (mkState (attempt st) (Some err) (lastResponse st))).
Proof.
  intros Hp. unfold catchBlock. rewrite Hp. simpl.
  rewrite Z.leb_antisym.
  destruct (Z.of_nat (attempt st) <? Cfg.maxRetries settings); reflexivity.
Qed.

Lemma catchBlock_abort (a : attempt_env) (st : loop_state) (err : JsError) :
  propagatesAbort a err = true ->
  catchBlock settings a st err = ([], Throw err).
Proof. intros Hp. unfold catchBlock. rewrite Hp. reflexivity. Qed.

Lemma propagatesAbort_Error (a : attempt_env) (message : string) :
  propagatesAbort a (Error message) = false.
Proof. reflexivity. Qed.

(** A retryable failure either waits and continues with the next attempt
    number, or, on the last attempt, records the error and leaves the
    loop. *)
Lemma loopBody_failure (st : loop_state) :
  retryableFailure settings (attempts w (attempt st)) = true ->
  loopBody settings w st =
  let o := raceAttempt settings (attempts w (attempt st)) in
  if Z.of_nat (attempt st) <? Cfg.maxRetries settings
  then (EvFetch (attempt st)
          :: fst (handleRetry settings (failureError o) (responseForDelay st o)
                              (attempt st)),
        Continue (mkState (S (attempt st)) (lastErrorOnRetry st o)
                          (responseForDelay st o)))
  else ([EvFetch (attempt st)],
        Break (mkState (attempt st) (Some (failureError o))
                       (responseForDelay st o))).
Proof.
  unfold retryableFailure, loopBody. intros H.
  apply andb_prop in H. destruct H as [Hstart Hout].
  apply negb_true_iff in Hstart. rewrite Hstart.
  destruct (raceAttempt settings (attempts w (attempt st))) as [r|e]; cbv zeta.
  - unfold onResolved, retryWith, unexpectedStatus, ok in *. simpl.
    destruct (Z.eqb_spec (status r) 429) as [E429|N429].
    + rewrite E429. simpl.
      destruct (Z.of_nat (attempt st) <? Cfg.maxRetries settings); reflexivity.
    + destruct (Z.leb_spec 500 (status r)) as [G500|L500].
      * replace (200 <=? status r) with true by (symmetry; apply Z.leb_le; lia).
        replace (status r <=? 299) with false by (symmetry; apply Z.leb_gt; lia).
        simpl.
        destruct (Z.of_nat (attempt st) <? Cfg.maxRetries settings); reflexivity.
      * simpl in Hout.
        apply andb_prop in Hout. destruct Hout as [Hok H400].
        apply negb_true_iff in Hok. rewrite Hok.
        apply Z.ltb_lt in H400.
        replace (400 <=? status r) with false by (symmetry; apply Z.leb_gt; lia).
        rewrite catchBlock_retry by apply propagatesAbort_Error. simpl.
        destruct (Z.of_nat (attempt st) <? Cfg.maxRetries settings); reflexivity.
  - apply negb_true_iff in Hout.
    rewrite catchBlock_retry by exact Hout. simpl.
    destruct (Z.of_nat (attempt st) <? Cfg.maxRetries settings); reflexivity.
Qed.

End LoopFacts.

(** ** Exhaustion of the retry budget *)

Section Exhaustion.

Variable settings : Cfg.t.
Variable w : world.

Lemma handleRetry_no_native_call (error : JsError) (response : option Response)
      (k : nat) :
  count is_native_call (fst (handleRetry settings error response k)) = 0%nat.
Proof. rewrite handleRetry_events. destruct k; reflexivity. Qed.

(** From any state with [n] retries left, [n+1] failing attempts use up
    the budget; fuel above [n] is enough. *)
Lemma fetchLoop_exhaustion (n : nat) :
  forall (fuel : nat) (st : loop_state),
    Z.of_nat (attempt st) + Z.of_nat n = Cfg.maxRetries settings ->
    (n < fuel)%nat ->
    (forall k, (attempt st <= k <= attempt st + n)%nat ->
               retryableFailure settings (attempts w k) = true) ->
    let err := failureError (raceAttempt settings (attempts w (attempt st + n))) in
    exists pre lr,
      fetchLoop settings w fuel st
      = (pre ++ [EvErrorNotification (Some err) lr], Thrown (Some err))
      /\ fetches pre = seq (attempt st) (S n)
      /\ count is_native_call pre = S n
      /\ count is_error_notification pre = 0%nat.
Proof.
  induction n as [|m IH]; intros fuel st Hmax Hfuel Hfail err.
  - destruct fuel as [|fuel]; [lia|]. cbn [fetchLoop].
    replace (Z.of_nat (attempt st) <=? Cfg.maxRetries settings) with true
      by (symmetry; apply Z.leb_le; lia).
    rewrite loopBody_failure by (apply Hfail; lia). cbv zeta.
    replace (Z.of_nat (attempt st) <? Cfg.maxRetries settings) with false
      by (symmetry; apply Z.ltb_ge; lia).
    subst err. rewrite Nat.add_0_r.
    eexists [EvFetch (attempt st)], _. repeat split.
  - destruct fuel as [|fuel]; [lia|]. cbn [fetchLoop].
    replace (Z.of_nat (attempt st) <=? Cfg.maxRetries settings) with true
      by (symmetry; apply Z.leb_le; lia).
    rewrite loopBody_failure by (apply Hfail; lia). cbv zeta.
    replace (Z.of_nat (attempt st) <? Cfg.maxRetries settings) with true
      by (symmetry; apply Z.ltb_lt; lia).
    set (o := raceAttempt settings (attempts w (attempt st))).
    set (st' := mkState (S (attempt st)) (lastErrorOnRetry st o)
                        (responseForDelay st o)).
    set (evs := fst (handleRetry settings (failureError o)
                                 (responseForDelay st o) (attempt st))).
    assert (Hidx : (attempt st' + m = attempt st + S m)%nat)
      by (unfold st'; cbn [attempt]; lia).
    specialize (IH fuel st'). cbv zeta in IH. rewrite Hidx in IH.
    change (attempt st') with (S (attempt st)) in IH.
    destruct IH as (pre & lr & Hrun & Hf & Hn & He).
    + lia.
    + lia.
    + intros k Hk. apply Hfail. lia.
    + rewrite Hrun. unfold prepend. cbn [fst snd].
      exists (EvFetch (attempt st) :: evs ++ pre), lr.
      split; [|split; [|split]].
      * subst err. rewrite <- !app_comm_cons, <- app_assoc. reflexivity.
      * change (EvFetch (attempt st) :: evs ++ pre)
          with ([EvFetch (attempt st)] ++ evs ++ pre).
        rewrite !fetches_app. unfold evs.
        rewrite handleRetry_fetches, Hf. reflexivity.
      * change (EvFetch (attempt st) :: evs ++ pre)
          with ([EvFetch (attempt st)] ++ evs ++ pre).
        rewrite !count_app. unfold evs.
        rewrite handleRetry_no_native_call, Hn. reflexivity.
      * change (EvFetch (attempt st) :: evs ++ pre)
          with ([EvFetch (attempt st)] ++ evs ++ pre).
        rewrite !count_app. unfold evs.
        rewrite handleRetry_no_error_notification, He. reflexivity.
Qed.

End Exhaustion.

(** C1. With the extension enabled and [maxRetries = N], a call whose
    attempts all fail with a retryable outcome makes exactly [N+1] native
    fetch calls (attempts 0 to N); the error notification is then invoked
    once, as the last thing the call does, and the error recorded for the
    last attempt is thrown. *)
Theorem exhaustion_makes_N_plus_1_attempts :
  forall (settings : Cfg.t) (w : world) (N : nat),
    Cfg.enabled settings = true ->
    aborted_at_entry w = false ->
    Cfg.maxRetries settings = Z.of_nat N ->
    (forall k, (k <= N)%nat -> retryableFailure settings (attempts w k) = true) ->
    let run := windowFetch settings w in
    let err := failureError (raceAttempt settings (attempts w N)) in
    fetches (fst run) = seq 0 (S N)
    /\ count is_native_call (fst run) = S N
    /\ count is_error_notification (fst run) = 1%nat
    /\ (exists pre lr, fst run = pre ++ [EvErrorNotification (Some err) lr])
    /\ snd run = Thrown (Some err).
Proof.
  intros settings w N Hen Hentry Hmax Hfail run err.
  subst run. unfold windowFetch. rewrite Hen, Hentry. simpl negb. cbv iota.
  destruct (fetchLoop_exhaustion settings w N
              (Z.to_nat (Cfg.maxRetries settings + 1)) initial_state)
    as (pre & lr & Hrun & Hf & Hn & He).
  - simpl. lia.
  - lia.
  - intros k Hk. apply Hfail. simpl in Hk. lia.
  - change (attempt initial_state + N)%nat with N in Hrun.
    rewrite Hrun. cbn [fst snd]. fold err.
    split; [|split; [|split; [|split]]].
    + rewrite fetches_app, Hf. apply app_nil_r.
    + rewrite count_app, Hn. apply Nat.add_0_r.
    + rewrite count_app, He. reflexivity.
    + exists pre, lr. reflexivity.
    + reflexivity.
Qed.

Lemma exhaustion_makes_N_plus_1_attempts_witness :
  let run := windowFetch scenarioSettings failingWorld in
  fetches (fst run) = [0; 1; 2]%nat
  /\ count is_native_call (fst run) = 3%nat
  /\ count is_error_notification (fst run) = 1%nat
  /\ (exists pre lr,
         fst run = pre ++ [EvErrorNotification
                             (Some (Error "Rate limited (429): Too Many Requests"))
                             lr])
  /\ snd run = Thrown (Some (Error "Rate limited (429): Too Many Requests")).
Proof.
  apply (exhaustion_makes_N_plus_1_attempts scenarioSettings failingWorld 2).
  - reflexivity.
  - reflexivity.
  - reflexivity.
  - intros k Hk. destruct k as [|[|[|k]]]; [reflexivity|reflexivity|reflexivity|lia].
Defined.

(** ** Where native calls appear in a run *)

Section NativeCalls.

Variable settings : Cfg.t.
Variable w : world.

Lemma catchBlock_fetches (a : attempt_env) (st : loop_state) (err : JsError) :
  fetches (fst (catchBlock settings a st err)) = [].
Proof.
  unfold catchBlock. cbn [attempt lastResponse].
  destruct (propagatesAbort a err); [reflexivity|].
  destruct (Cfg.maxRetries settings <=? Z.of_nat (attempt st)); [reflexivity|].
  rewrite handleRetry_events. destruct (attempt st); reflexivity.
Qed.

Lemma retryWith_fetches (st : loop_state) (error : JsError) (r : Response) :
  fetches (fst (retryWith settings st error r)) = [].
Proof.
  unfold retryWith. rewrite handleRetry_events.
  destruct (attempt st); reflexivity.
Qed.

Lemma onResolved_fetches (a : attempt_env) (st : loop_state) (r : Response) :
  fetches (fst (onResolved settings w a st r)) = [].
Proof.
  unfold onResolved. cbv zeta.
  repeat match goal with
         | |- context [if ?b then _ else _] => destruct b
         end;
    try reflexivity; try apply retryWith_fetches; apply catchBlock_fetches.
Qed.

(** An iteration calls the native fetch once, first, unless the caller's
    signal is already aborted at its top. *)
Lemma loopBody_fetches (st : loop_state) :
  fetches (fst (loopBody settings w st))
  = if aborted_at_start (attempts w (attempt st)) then [] else [attempt st].
Proof.
  unfold loopBody.
  destruct (aborted_at_start (attempts w (attempt st))); [reflexivity|].
  destruct (raceAttempt settings (attempts w (attempt st))) as [r|e].
  - pose proof (onResolved_fetches (attempts w (attempt st)) st r) as H.
    destruct (onResolved settings w (attempts w (attempt st)) st r) as [evs c].
    cbn [fst] in *. change (fetches (EvFetch (attempt st) :: evs))
      with (attempt st :: fetches evs). rewrite H. reflexivity.
  - pose proof (catchBlock_fetches (attempts w (attempt st)) st e) as H.
    destruct (catchBlock settings (attempts w (attempt st)) st e) as [evs c].
    cbn [fst] in *. change (fetches (EvFetch (attempt st) :: evs))
      with (attempt st :: fetches evs). rewrite H. reflexivity.
Qed.

(** Every attempt that the loop starts saw the caller's signal not
    aborted at the top of its iteration. *)
Lemma fetchLoop_fetches_not_aborted (fuel : nat) :
  forall (st : loop_state) (k : nat),
    In k (fetches (fst (fetchLoop settings w fuel st))) ->
    aborted_at_start (attempts w k) = false.
Proof.
  induction fuel as [|fuel IH]; intros st k Hin; cbn [fetchLoop] in Hin.
  - destruct (Z.of_nat (attempt st) <=? Cfg.maxRetries settings);
      contradiction Hin.
  - destruct (Z.of_nat (attempt st) <=? Cfg.maxRetries settings);
      [|contradiction Hin].
    pose proof (loopBody_fetches st) as Hbody.
    destruct (loopBody settings w st) as [evs c]. cbn [fst] in Hbody.
    assert (Hhead : In k (fetches evs) -> aborted_at_start (attempts w k) = false).
    { rewrite Hbody.
      destruct (aborted_at_start (attempts w (attempt st))) eqn:Hab;
        [intros []|intros [<-|[]]; exact Hab]. }
    destruct c as [st'|st'|r|e]; unfold prepend in Hin; cbn [fst snd] in Hin.
    + rewrite fetches_app in Hin. apply in_app_or in Hin.
      destruct Hin as [Hin|Hin]; [exact (Hhead Hin)|exact (IH st' k Hin)].
    + rewrite fetches_app in Hin. apply in_app_or in Hin.
      destruct Hin as [Hin|Hin]; [exact (Hhead Hin)|contradiction Hin].
    + exact (Hhead Hin).
    + exact (Hhead Hin).
Qed.

Lemma fetchLoop_enter (fuel : nat) (st : loop_state) :
  Z.of_nat (attempt st) <= Cfg.maxRetries settings ->
  fetchLoop settings w (S fuel) st =
  let '(evs, c) := loopBody settings w st in
  match c with
  | Continue st' => prepend evs (fetchLoop settings w fuel st')
  | Break st' => prepend evs (afterLoop st')
  | Return r => (evs, Returned r)
  | Throw e => (evs, Thrown (Some e))
  end.
Proof.
  intros Hle. cbn [fetchLoop].
  replace (Z.of_nat (attempt st) <=? Cfg.maxRetries settings) with true
    by (symmetry; apply Z.leb_le; exact Hle).
  reflexivity.
Qed.

Lemma abort_name_not_timeout (e : JsError) :
  name_is e "AbortError" = true -> name_is e "TimeoutError" = false.
Proof.
  unfold name_is. destruct (err_name e) as [n|]; [|discriminate].
  intros H. apply String.eqb_eq in H. subst n. reflexivity.
Qed.

End NativeCalls.

(** C3. An attempt that resolves with a status in [400,429) or (429,500)
    ends the call at once with that very response: the trace of the loop
    from that iteration is the single native call, so no retry, no toast,
    no wait, no error notification and nothing thrown.  In particular, on
    the first attempt, the whole call is one native call and the response
    (a 403, say) is returned. *)
Theorem client_error_returned_unchanged :
  forall (settings : Cfg.t) (w : world) (st : loop_state) (fuel : nat)
         (r : Response),
    Z.of_nat (attempt st) <= Cfg.maxRetries settings ->
    aborted_at_start (attempts w (attempt st)) = false ->
    raceAttempt settings (attempts w (attempt st)) = Resolved r ->
    clientError r = true ->
    fetchLoop settings w (S fuel) st = ([EvFetch (attempt st)], Returned r)
    /\ (Cfg.enabled settings = true ->
        aborted_at_entry w = false ->
        attempt st = 0%nat ->
        windowFetch settings w = ([EvFetch 0%nat], Returned r)).
Proof.
  intros settings w st fuel r Hle Hstart Hrace Hclient.
  assert (Hbody : forall st0, attempt st0 = attempt st ->
                              loopBody settings w st0
                              = ([EvFetch (attempt st)], Return r)).
  { intros st0 Hk. unfold loopBody. rewrite Hk, Hstart, Hrace.
    unfold onResolved, clientError, ok in *. cbv zeta.
    apply andb_prop in Hclient. destruct Hclient as [Hrange Hnot].
    apply andb_prop in Hrange. destruct Hrange as [H400 H500].
    apply negb_true_iff in Hnot. apply Z.leb_le in H400. apply Z.ltb_lt in H500.
    replace (status r <=? 299) with false by (symmetry; apply Z.leb_gt; lia).
    rewrite andb_false_r, Hnot.
    replace (500 <=? status r) with false by (symmetry; apply Z.leb_gt; lia).
    replace (400 <=? status r) with true by (symmetry; apply Z.leb_le; lia).
    reflexivity. }
  split.
  - rewrite fetchLoop_enter by exact Hle. rewrite Hbody; reflexivity.
  - intros Hen Hentry H0. unfold windowFetch. rewrite Hen, Hentry. cbn [negb].
    rewrite H0 in Hle.
    destruct (Z.to_nat (Cfg.maxRetries settings + 1)) as [|fuel0] eqn:Hfuel;
      [cbn in Hle; lia|].
    rewrite fetchLoop_enter by (cbn; lia).
    rewrite Hbody by (symmetry; exact H0). rewrite H0. reflexivity.
Qed.

Lemma client_error_returned_unchanged_witness :
  windowFetch Cfg.default (scripted "/api/chats/get" [Resolved r403] (Resolved r200))
  = ([EvFetch 0%nat], Returned r403).
Proof.
  apply (client_error_returned_unchanged
           Cfg.default
           (scripted "/api/chats/get" [Resolved r403] (Resolved r200))
           initial_state 0 r403);
    try reflexivity.
  vm_compute. discriminate.
Defined.

(** The two places where the loop reads the caller's signal.  Every
    attempt found in a trace saw the signal not aborted at the top of its
    iteration, so if the signal is aborted from iteration [j] on, only
    attempts before [j] are ever started; an iteration whose top sees the
    aborted signal throws the abort failure with no native call, no
    toast, no wait and no error notification; and a rejection that is
    named [AbortError], caught while the caller's signal is aborted, is
    rethrown at once. *)
Lemma abort_checks_of_the_loop :
  forall (settings : Cfg.t) (w : world) (fuel : nat) (st : loop_state),
    (forall k, In k (fetches (fst (fetchLoop settings w fuel st))) ->
               aborted_at_start (attempts w k) = false)
    /\ (forall j, aborted_from w j ->
                  forall k, In k (fetches (fst (fetchLoop settings w fuel st))) ->
                            (k < j)%nat)
    /\ (Z.of_nat (attempt st) <= Cfg.maxRetries settings ->
        aborted_at_start (attempts w (attempt st)) = true ->
        fetchLoop settings w (S fuel) st = ([], Thrown (Some abortError)))
    /\ (forall e : JsError,
           Z.of_nat (attempt st) <= Cfg.maxRetries settings ->
           aborted_at_start (attempts w (attempt st)) = false ->
           raceAttempt settings (attempts w (attempt st)) = Rejected e ->
           name_is e "AbortError" = true ->
           aborted_at_catch (attempts w (attempt st)) = true ->
           fetchLoop settings w (S fuel) st
           = ([EvFetch (attempt st)], Thrown (Some e))).
Proof.
  intros settings w fuel st. split; [|split; [|split]].
  - intros k. apply fetchLoop_fetches_not_aborted.
  - intros j Hfrom k Hin.
    apply fetchLoop_fetches_not_aborted in Hin.
    destruct (Nat.lt_ge_cases k j) as [Hlt|Hge]; [exact Hlt|].
    rewrite (Hfrom k Hge) in Hin. discriminate.
  - intros Hle Hab. rewrite fetchLoop_enter by exact Hle.
    rewrite loopBody_aborted by exact Hab. reflexivity.
  - intros e Hle Hstart Hrace Hname Hcatch.
    rewrite fetchLoop_enter by exact Hle.
    unfold loopBody. rewrite Hstart, Hrace.
    rewrite catchBlock_abort; [reflexivity|].
    unfold propagatesAbort, isUserAbort.
    rewrite (abort_name_not_timeout e Hname), Hname, Hcatch. reflexivity.
Qed.

(** ** The thinking timeout *)

(** C6, as stated, fails: with the checkbox on and [thinkingTimeout = 0]
    the gate of the specification is closed, yet the timer is armed with
    0 ms, and a native fetch that would answer 200 after 100 ms is
    cancelled by it: the race rejects instead. *)
Lemma zero_thinking_timeout_still_races :
  Cfg.enableThinkingTimeout zeroTimeoutSettings = true
  /\ Cfg.thinkingTimeout zeroTimeoutSettings = 0
  /\ specTimerGate zeroTimeoutSettings = false
  /\ thinkingTimer zeroTimeoutSettings = Some 0
  /\ native promptOk = Resolved r200
  /\ raceAttempt zeroTimeoutSettings promptOk = Rejected timerAbortError
  /\ raceAttempt zeroTimeoutSettings promptOk <> native promptOk.
Proof. repeat split. discriminate. Qed.

(** C6, amended. The race is gated by [enableThinkingTimeout] alone: a
    timer is armed exactly when the flag is on, with whatever
    [thinkingTimeout] holds, 0 included; with the flag off the attempt
    settles as the native fetch does.  With the flag on, an attempt whose
    native fetch takes longer than the timer is cancelled by it and the
    race rejects; with a timeout of 0 that is every attempt that takes
    any time. *)
Theorem thinking_timeout_gated_by_flag :
  forall (settings : Cfg.t) (a : attempt_env),
    (thinkingTimer settings <> None <-> Cfg.enableThinkingTimeout settings = true)
    /\ (Cfg.enableThinkingTimeout settings = true ->
        thinkingTimer settings = Some (Cfg.thinkingTimeout settings))
    /\ (Cfg.enableThinkingTimeout settings = false ->
        raceAttempt settings a = native a)
    /\ (Cfg.enableThinkingTimeout settings = true ->
        timerDelay (Cfg.thinkingTimeout settings) < latency a ->
        raceAttempt settings a = Rejected (timer_rejection a)).
Proof.
  intros settings a. unfold raceAttempt, thinkingTimer.
  destruct (Cfg.enableThinkingTimeout settings); repeat split;
    try congruence; try discriminate.
  intros _ Hlt. apply Z.ltb_lt in Hlt. rewrite Hlt. reflexivity.
Qed.

Lemma thinking_timeout_gated_by_flag_witness :
  raceAttempt zeroTimeoutSettings promptOk = Rejected timerAbortError.
Proof.
  apply (proj2 (proj2 (proj2 (thinking_timeout_gated_by_flag
                                zeroTimeoutSettings promptOk)))).
  - reflexivity.
  - reflexivity.
Defined.

(** ** The retry notification *)

(** C7, as stated, fails: at the default settings a 503 on the first
    attempt is a retryable failure with [attempt < maxRetries], the loop
    waits 5000 ms and tries again, and no retry toast is shown. *)
Lemma first_wait_has_no_retry_toast :
  let run := windowFetch Cfg.default firstFailureWorld in
  retryableFailure Cfg.default (attempts firstFailureWorld 0) = true
  /\ fetches (fst run) = [0; 1]%nat
  /\ waits (fst run) = [5000%Q]
  /\ count is_retry_toast (fst run) = 0%nat
  /\ ~ In (EvRetryToast 0 5 (failureError (Resolved r503))) (fst run)
  /\ snd run = Returned r200.
Proof.
  vm_compute. repeat split.
  intros [H|[H|[H|[]]]]; discriminate H.
Qed.

(** C7, amended. A retryable failure with [attempt < maxRetries] is
    followed by the wait of the computed delay; the retry toast, with the
    attempt number, [maxRetries] and the error, comes before that wait
    when [attempt > 0], and is not shown after the first attempt
    (attempt 0). *)
Theorem retry_toast_before_wait_except_first :
  forall (settings : Cfg.t) (w : world) (st : loop_state),
    retryableFailure settings (attempts w (attempt st)) = true ->
    Z.of_nat (attempt st) < Cfg.maxRetries settings ->
    let o := raceAttempt settings (attempts w (attempt st)) in
    let err := failureError o in
    let delay := getRetryDelay settings err (responseForDelay st o) (attempt st) in
    fst (loopBody settings w st)
    = match attempt st with
      | O => [EvFetch 0%nat; EvWait delay]
      | S _ => [EvFetch (attempt st);
                EvRetryToast (attempt st) (Cfg.maxRetries settings) err;
                EvWait delay]
      end.
Proof.
  intros settings w st Hfail Hlt o err delay.
  rewrite loopBody_failure by exact Hfail. cbv zeta.
  apply Z.ltb_lt in Hlt. rewrite Hlt. cbn [fst].
  rewrite handleRetry_events. subst delay err o.
  destruct (attempt st); reflexivity.
Qed.

Lemma retry_toast_before_wait_except_first_witness :
  fst (loopBody Cfg.default failingWorld (mkState 1 None (Some r503)))
  = [EvFetch 1%nat;
     EvRetryToast 1 5 networkError;
     EvWait (getRetryDelay Cfg.default networkError (Some r503) 1)].
Proof.
  apply (retry_toast_before_wait_except_first
           Cfg.default failingWorld (mkState 1 None (Some r503))).
  - reflexivity.
  - reflexivity.
Defined.

(** ** The stream check *)

(** C8. The validity check never reports an invalid response: whatever
    the settings, the monitor id, the response and the URL, the answer is
    [{invalid: false, reason: ''}]; so a 2xx response is returned by the
    iteration that received it and is never retried. *)
Theorem stream_inactivity_never_flagged :
  forall (settings : Cfg.t) (w : world) (id : option Z) (response : Response)
         (u : string) (st : loop_state),
    isResponseInvalid settings id response u = mkValidity false ""
    /\ (ok response = true ->
        onResolved settings w (attempts w (attempt st)) st response
        = ([], Return response)).
Proof.
  intros settings w id response u st.
  assert (Hnever : forall i v, isResponseInvalid settings i response v
                               = mkValidity false "").
  { intros i v. unfold isResponseInvalid, streamCheck.
    destruct (Cfg.streamInactivityTimeout settings =? 0); [reflexivity|].
    destruct (negb (isGenerationUrl v)); [reflexivity|].
    destruct (truthy_id i); reflexivity. }
  split; [apply Hnever|].
  intros Hok. unfold onResolved. cbv zeta. rewrite Hok, Hnever. reflexivity.
Qed.

(** A 200 on a generation endpoint, with the inactivity timeout at its
    default of 30 s, is returned at once. *)
Lemma stream_inactivity_never_flagged_witness :
  onResolved Cfg.default scenarioWorld (attempts scenarioWorld 3)
             (mkState 3 None None) r200
  = ([], Return r200).
Proof.
  apply (proj2 (stream_inactivity_never_flagged
                  Cfg.default scenarioWorld None r200 (url scenarioWorld)
                  (mkState 3 None None))).
  reflexivity.
Defined.

(** ** Runs, iteration by iteration *)

Section Runs.

Variable settings : Cfg.t.
Variable w : world.

(** A retryable failure with budget left: the native call, the events of
    [handleRetry], then the rest of the loop from the next attempt. *)
Lemma fetchLoop_retry (fuel : nat) (st : loop_state) :
  retryableFailure settings (attempts w (attempt st)) = true ->
  Z.of_nat (attempt st) < Cfg.maxRetries settings ->
  let o := raceAttempt settings (attempts w (attempt st)) in
  fetchLoop settings w (S fuel) st
  = prepend (EvFetch (attempt st)
               :: fst (handleRetry settings (failureError o)
                                   (responseForDelay st o) (attempt st)))
            (fetchLoop settings w fuel
                       (mkState (S (attempt st)) (lastErrorOnRetry st o)
                                (responseForDelay st o))).
Proof.
  intros Hfail Hlt o. rewrite fetchLoop_enter by lia.
  rewrite loopBody_failure by exact Hfail. cbv zeta.
  apply Z.ltb_lt in Hlt. rewrite Hlt. reflexivity.
Qed.

(** A retryable failure on the last attempt: the native call, the error
    notification, and the error thrown. *)
Lemma fetchLoop_last (fuel : nat) (st : loop_state) :
  retryableFailure settings (attempts w (attempt st)) = true ->
  Z.of_nat (attempt st) = Cfg.maxRetries settings ->
  let o := raceAttempt settings (attempts w (attempt st)) in
  fetchLoop settings w (S fuel) st
  = ([EvFetch (attempt st);
      EvErrorNotification (Some (failureError o)) (responseForDelay st o)],
     Thrown (Some (failureError o))).
Proof.
  intros Hfail Heq o. rewrite fetchLoop_enter by lia.
  rewrite loopBody_failure by exact Hfail. cbv zeta.
  replace (Z.of_nat (attempt st) <? Cfg.maxRetries settings) with false
    by (symmetry; apply Z.ltb_ge; lia).
  reflexivity.
Qed.

(** A resolved 429 that is not aborted at its start is a retryable
    failure. *)
Lemma rate_limited_is_retryable (k : nat) (r : Response) :
  aborted_at_start (attempts w k) = false ->
  raceAttempt settings (attempts w k) = Resolved r ->
  status r = 429 ->
  retryableFailure settings (attempts w k) = true.
Proof.
  intros Hstart Hrace H429. unfold retryableFailure.
  rewrite Hstart, Hrace, H429. reflexivity.
Qed.

(** The delay after a 429 without a usable [Retry-After] header. *)
Lemma rate_limited_delay (error : JsError) (r : Response) (k : nat) :
  status r = 429 ->
  retryAfterSeconds (Some r) = None ->
  getRetryDelay settings error (Some r) k
  = Qmax (Qmax (Cfg.minRetryDelay settings)
               (Cfg.rateLimitDelay settings * (3#2) ^ Z.of_nat k))
         (Cfg.retryDelay settings * (6#5) ^ Z.of_nat k).
Proof.
  intros H429 Hnone. unfold getRetryDelay.
  rewrite retryAfterFloor_seconds, Hnone, rateLimitFloor_isRateLimited.
  cbn [isRateLimited]. rewrite H429. reflexivity.
Qed.

End Runs.

(** A rejection whose name is not [AbortError] is not taken for the
    caller's abort, whatever the state of the caller's signal: with budget
    left the loop goes through [handleRetry] before the next iteration,
    whose top is where an aborted signal is then noticed. *)
Remark rejection_under_other_name_is_retried :
  forall (settings : Cfg.t) (w : world) (fuel : nat) (st : loop_state)
         (e : JsError),
    Z.of_nat (attempt st) < Cfg.maxRetries settings ->
    aborted_at_start (attempts w (attempt st)) = false ->
    raceAttempt settings (attempts w (attempt st)) = Rejected e ->
    name_is e "AbortError" = false ->
    fetchLoop settings w (S fuel) st
    = prepend (EvFetch (attempt st)
                 :: fst (handleRetry settings e (lastResponse st) (attempt st)))
              (fetchLoop settings w fuel
                         (mkState (S (attempt st)) (Some e) (lastResponse st))).
Proof.
  intros settings w fuel st e Hlt Hstart Hrace Hname.
  assert (Hp : propagatesAbort (attempts w (attempt st)) e = false).
  { unfold propagatesAbort. rewrite Hname.
    destruct (name_is e "TimeoutError"); reflexivity. }
  rewrite fetchLoop_retry; [|unfold retryableFailure|exact Hlt].
  - cbv zeta. rewrite Hrace. reflexivity.
  - rewrite Hstart, Hrace, Hp. reflexivity.
Qed.

(** C4. When the caller aborts while an attempt is in flight and the
    native fetch rejects with a value that is not named [AbortError], as
    it does with the abort reason ['User aborted'] of line 658, the catch
    block does not propagate the abort.  With budget left it goes
    through [handleRetry], so a toast (for an attempt after the first)
    and a wait come before the abort failure, which is thrown only at the
    top of the next iteration; on the last attempt it invokes the error
    notification and throws the rejection itself. *)
Theorem caller_abort_in_flight_is_retried :
  forall (settings : Cfg.t) (w : world) (fuel : nat) (st : loop_state)
         (e : JsError),
    aborted_at_start (attempts w (attempt st)) = false ->
    raceAttempt settings (attempts w (attempt st)) = Rejected e ->
    name_is e "AbortError" = false ->
    aborted_at_catch (attempts w (attempt st)) = true ->
    let delay := getRetryDelay settings e (lastResponse st) (attempt st) in
    (Z.of_nat (attempt st) < Cfg.maxRetries settings ->
     aborted_at_start (attempts w (S (attempt st))) = true ->
     fetchLoop settings w (S (S fuel)) st
     = (match attempt st with
        | O => [EvFetch 0%nat; EvWait delay]
        | S _ => [EvFetch (attempt st);
                  EvRetryToast (attempt st) (Cfg.maxRetries settings) e;
                  EvWait delay]
        end,
        Thrown (Some abortError)))
    /\ (Z.of_nat (attempt st) = Cfg.maxRetries settings ->
        fetchLoop settings w (S fuel) st
        = ([EvFetch (attempt st);
            EvErrorNotification (Some e) (lastResponse st)],
           Thrown (Some e))).
Proof.
  intros settings w fuel st e Hstart Hrace Hname Hcatch delay.
  assert (Hp : propagatesAbort (attempts w (attempt st)) e = false).
  { unfold propagatesAbort. rewrite Hname.
    destruct (name_is e "TimeoutError"); reflexivity. }
  assert (Hfail : retryableFailure settings (attempts w (attempt st)) = true).
  { unfold retryableFailure. rewrite Hstart, Hrace, Hp. reflexivity. }
  split.
  - intros Hlt Hnext.
    rewrite fetchLoop_retry by assumption. cbv zeta. rewrite Hrace.
    cbn [failureError responseForDelay lastErrorOnRetry].
    rewrite fetchLoop_enter by (cbn [attempt]; lia).
    rewrite loopBody_aborted by (cbn [attempt]; exact Hnext).
    unfold prepend. cbn [fst snd]. rewrite app_nil_r.
    rewrite handleRetry_events. cbn [fst]. subst delay.
    destruct (attempt st); reflexivity.
  - intros Heq.
    rewrite fetchLoop_last by assumption. cbv zeta. rewrite Hrace.
    reflexivity.
Qed.

(** The caller aborts during the second attempt, which rejects with the
    abort reason: with the default five retries the loop shows a toast
    and waits before it throws the abort failure; with a single retry it
    shows the error notification and throws the reason. *)
Lemma caller_abort_in_flight_is_retried_witness :
  fetchLoop Cfg.default abortedInFlight 5 (mkState 1 None (Some r503))
  = ([EvFetch 1%nat;
      EvRetryToast 1 5 userAbortReason;
      EvWait (getRetryDelay Cfg.default userAbortReason (Some r503) 1)],
     Thrown (Some abortError))
  /\ fetchLoop oneRetrySettings abortedInFlight 1 (mkState 1 None (Some r503))
     = ([EvFetch 1%nat;
         EvErrorNotification (Some userAbortReason) (Some r503)],
        Thrown (Some userAbortReason)).
Proof.
  split.
  - apply (proj1 (caller_abort_in_flight_is_retried
                    Cfg.default abortedInFlight 3
                    (mkState 1 None (Some r503)) userAbortReason
                    eq_refl eq_refl eq_refl eq_refl)).
    + reflexivity.
    + reflexivity.
  - apply (proj2 (caller_abort_in_flight_is_retried
                    oneRetrySettings abortedInFlight 0
                    (mkState 1 None (Some r503)) userAbortReason
                    eq_refl eq_refl eq_refl eq_refl)).
    reflexivity.
Defined.

(** ** The 429 scenario *)

(** C9, as stated, fails: in the scenario the third 429 uses up the
    budget of two retries, so the call throws the rate-limit error and
    does not return the 200 response, which is never requested; and only
    one retry toast is shown, before the second wait. *)
Lemma scenario_does_not_reach_the_200 :
  let run := windowFetch scenarioSettings scenarioWorld in
  fetches (fst run) = [0; 1; 2]%nat
  /\ snd run <> Returned r200
  /\ snd run = Thrown (Some (Error "Rate limited (429): Too Many Requests"))
  /\ count is_retry_toast (fst run) = 1%nat
  /\ waits (fst run) = [1000%Q; 1500%Q].
Proof. vm_compute. repeat split. discriminate. Qed.

(** C9, amended. Under [{maxRetries: 2, retryDelay: 1000,
    rateLimitDelay: 1000, minRetryDelay: 0}], when the first three
    attempts resolve with 429 (without a usable [Retry-After] header),
    the call makes exactly 3 attempts, waits 1000 ms and then 1500 ms
    between them, shows one retry toast (for attempt 1, before the second
    wait), invokes the error notification once and throws the rate-limit
    error of the third 429; a fourth attempt is never made. *)
Theorem scenario_three_429_exhaust_budget :
  forall (settings : Cfg.t) (w : world) (r0 r1 r2 : Response),
    Cfg.enabled settings = true ->
    Cfg.maxRetries settings = 2 ->
    Cfg.retryDelay settings = 1000%Q ->
    Cfg.rateLimitDelay settings = 1000%Q ->
    Cfg.minRetryDelay settings = 0%Q ->
    aborted_at_entry w = false ->
    (forall k, (k < 3)%nat -> aborted_at_start (attempts w k) = false) ->
    raceAttempt settings (attempts w 0) = Resolved r0 ->
    raceAttempt settings (attempts w 1) = Resolved r1 ->
    raceAttempt settings (attempts w 2) = Resolved r2 ->
    status r0 = 429 -> status r1 = 429 -> status r2 = 429 ->
    retryAfterSeconds (Some r0) = None ->
    retryAfterSeconds (Some r1) = None ->
    let run := windowFetch settings w in
    fetches (fst run) = [0; 1; 2]%nat
    /\ count is_native_call (fst run) = 3%nat
    /\ waits (fst run) = [1000%Q; 1500%Q]
    /\ filter is_retry_toast (fst run)
       = [EvRetryToast 1 2 (Error ("Rate limited (429): " ++ statusText r1))]
    /\ count is_error_notification (fst run) = 1%nat
    /\ snd run = Thrown (Some (Error ("Rate limited (429): " ++ statusText r2))).
Proof.
  intros settings w r0 r1 r2 Hen Hmax Hrd Hrl Hmin Hentry Hstart
         Hr0 Hr1 Hr2 H0 H1 H2 Hra0 Hra1 run.
  subst run. unfold windowFetch. rewrite Hen, Hentry, Hmax. cbn [negb].
  change (Z.to_nat (2 + 1)) with 3%nat.
  rewrite fetchLoop_retry;
    [|apply (rate_limited_is_retryable settings w 0 r0); auto
     |rewrite Hmax; cbn; lia].
  rewrite fetchLoop_retry;
    [|apply (rate_limited_is_retryable settings w 1 r1); auto
     |rewrite Hmax; cbn; lia].
  rewrite fetchLoop_last;
    [|apply (rate_limited_is_retryable settings w 2 r2); auto
     |rewrite Hmax; reflexivity].
  cbn [attempt initial_state]. rewrite Hr0, Hr1, Hr2.
  cbn [responseForDelay failureError]. rewrite H0, H1, H2.
  cbn [Z.eqb Pos.eqb]. rewrite !handleRetry_events.
  rewrite !rate_limited_delay by assumption.
  rewrite Hmin, Hrl, Hrd, Hmax.
  unfold prepend. cbn [fst snd app].
  repeat split.
Qed.

Lemma scenario_three_429_exhaust_budget_witness :
  let run := windowFetch scenarioSettings scenarioWorld in
  fetches (fst run) = [0; 1; 2]%nat
  /\ count is_native_call (fst run) = 3%nat
  /\ waits (fst run) = [1000%Q; 1500%Q]
  /\ filter is_retry_toast (fst run)
     = [EvRetryToast 1 2 (Error "Rate limited (429): Too Many Requests")]
  /\ count is_error_notification (fst run) = 1%nat
  /\ snd run = Thrown (Some (Error "Rate limited (429): Too Many Requests")).
Proof.
  apply (scenario_three_429_exhaust_budget
           scenarioSettings scenarioWorld r429 r429 r429);
    reflexivity.
Defined.

(** ** The response behind the delay *)

(** C10, as stated, fails for an unexpected status: after a 429 that
    announced 20 seconds, an attempt that resolves with a 304 throws, and
    the wait that follows is computed from the 304 response itself
    (6000 ms); the stale 429 response would have given 20000 ms. *)
Lemma unexpected_status_delay_ignores_stale_response :
  let run := windowFetch Cfg.default unexpectedStatusWorld in
  fetches (fst run) = [0; 1; 2]%nat
  /\ unexpectedStatus r304 = true
  /\ waits (fst run) = [20000%Q; 6000%Q]
  /\ Qred (getRetryDelay Cfg.default (Error "HTTP 304: Not Modified")
                         (Some r429_retry_after_20) 1) = 20000%Q
  /\ nth 1 (waits (fst run)) 0%Q
     <> Qred (getRetryDelay Cfg.default (Error "HTTP 304: Not Modified")
                            (Some r429_retry_after_20) 1)
  /\ snd run = Returned r200.
Proof. vm_compute. repeat split. discriminate. Qed.

(** C10, amended. When the race itself rejects (timeout, network failure)
    and the attempt is retried, the delay is computed from [lastResponse]
    as earlier attempts left it, and [lastResponse] stays as it was: if it
    holds a 429, the rate-limit schedule applies, and its [Retry-After]
    header applies too.  A retried attempt that resolved with a 429 or a
    5xx is what leaves its response in [lastResponse].  An attempt that
    throws because of an unexpected status has its delay computed from
    its own response. *)
Theorem delay_after_throw_uses_lastResponse :
  forall (settings : Cfg.t) (w : world) (st : loop_state),
    Z.of_nat (attempt st) < Cfg.maxRetries settings ->
    aborted_at_start (attempts w (attempt st)) = false ->
    let k := attempt st in
    let a := attempts w k in
    (forall e : JsError,
        raceAttempt settings a = Rejected e ->
        propagatesAbort a e = false ->
        loopBody settings w st
        = (EvFetch k :: fst (handleRetry settings e (lastResponse st) k),
           Continue (mkState (S k) (Some e) (lastResponse st)))
        /\ snd (handleRetry settings e (lastResponse st) k) = S k
        /\ (forall r0, lastResponse st = Some r0 -> status r0 = 429 ->
                       (Cfg.rateLimitDelay settings * (3#2) ^ Z.of_nat k
                        <= getRetryDelay settings e (lastResponse st) k)%Q)
        /\ (forall r0 seconds,
               lastResponse st = Some r0 ->
               retryAfterSeconds (Some r0) = Some seconds ->
               (Qmin (inject_Z seconds * 1000) 30000
                <= getRetryDelay settings e (lastResponse st) k)%Q))
    /\ (forall r : Response,
           raceAttempt settings a = Resolved r ->
           status r = 429 \/ 500 <= status r ->
           snd (loopBody settings w st)
           = Continue (mkState (S k) (lastError st) (Some r)))
    /\ (forall r : Response,
           raceAttempt settings a = Resolved r ->
           unexpectedStatus r = true ->
           loopBody settings w st
           = (EvFetch k
                :: fst (handleRetry settings (failureError (Resolved r))
                                    (Some r) k),
              Continue (mkState (S k) (Some (failureError (Resolved r)))
                                (Some r)))).
Proof.
  intros settings w st Hlt Hstart k a. subst k a.
  assert (Hltb : (Z.of_nat (attempt st) <? Cfg.maxRetries settings) = true)
    by (apply Z.ltb_lt; exact Hlt).
  split; [|split].
  - intros e Hrace Hp. split; [|split; [|split]].
    + rewrite loopBody_failure
        by (unfold retryableFailure; rewrite Hstart, Hrace, Hp; reflexivity).
      cbv zeta. rewrite Hltb, Hrace. reflexivity.
    + reflexivity.
    + intros r0 Hlast H429. rewrite Hlast.
      apply getRetryDelay_ge_rateLimit. exact H429.
    + intros r0 seconds Hlast Hsec. rewrite Hlast.
      apply getRetryDelay_ge_retryAfter. exact Hsec.
  - intros r Hrace Hstatus.
    assert (Hb : (status r =? 429) || (500 <=? status r) = true).
    { destruct Hstatus as [H429|H500].
      - rewrite H429. reflexivity.
      - apply Z.leb_le in H500. rewrite H500. apply orb_true_r. }
    rewrite loopBody_failure
      by (unfold retryableFailure; rewrite Hstart, Hrace, Hb; reflexivity).
    cbv zeta. rewrite Hltb, Hrace. cbn [snd lastErrorOnRetry responseForDelay].
    rewrite Hb. reflexivity.
  - intros r Hrace Hunexp.
    assert (Hb : (status r =? 429) || (500 <=? status r) = false).
    { unfold unexpectedStatus in Hunexp. apply andb_prop in Hunexp.
      destruct Hunexp as [_ H400]. apply Z.ltb_lt in H400.
      apply orb_false_intro; [apply Z.eqb_neq|apply Z.leb_gt]; lia. }
    rewrite loopBody_failure
      by (unfold retryableFailure; rewrite Hstart, Hrace, Hunexp;
          rewrite orb_true_r; reflexivity).
    cbv zeta. rewrite Hltb, Hrace. cbn [lastErrorOnRetry responseForDelay].
    rewrite Hb. reflexivity.
Qed.

(** After a 429 that announced 20 seconds, a network failure on the
    second attempt waits by the stale 429 response. *)
Lemma delay_after_throw_uses_lastResponse_witness :
  loopBody Cfg.default staleWorld (mkState 1 None (Some r429_retry_after_20))
  = (EvFetch 1%nat
       :: fst (handleRetry Cfg.default networkError
                           (Some r429_retry_after_20) 1),
     Continue (mkState 2 (Some networkError) (Some r429_retry_after_20)))
  /\ (Cfg.rateLimitDelay Cfg.default * (3#2) ^ 1
      <= getRetryDelay Cfg.default networkError (Some r429_retry_after_20) 1)%Q.
Proof.
  pose proof (delay_after_throw_uses_lastResponse
                Cfg.default staleWorld
                (mkState 1 None (Some r429_retry_after_20))
                ltac:(vm_compute; reflexivity) eq_refl) as H.
  destruct H as [Hrej _].
  destruct (Hrej networkError eq_refl eq_refl) as (Hbody & _ & Hrate & _).
  split.
  - exact Hbody.
  - exact (Hrate r429_retry_after_20 eq_refl eq_refl).
Defined.

(** ** Termination *)

Section Termination.

Variable settings : Cfg.t.
Variable w : world.

Lemma catchBlock_continue (a : attempt_env) (st st' : loop_state) (err : JsError) :
  snd (catchBlock settings a st err) = Continue st' ->
  attempt st' = S (attempt st).
Proof.
  unfold catchBlock. cbn [attempt lastResponse].
  destruct (propagatesAbort a err); [discriminate|].
  destruct (Cfg.maxRetries settings <=? Z.of_nat (attempt st)); [discriminate|].
  rewrite handleRetry_events. cbn [snd]. intros [= <-]. reflexivity.
Qed.

Lemma retryWith_continue (st st' : loop_state) (error : JsError) (r : Response) :
  snd (retryWith settings st error r) = Continue st' ->
  attempt st' = S (attempt st).
Proof.
  unfold retryWith. rewrite handleRetry_events. cbn [snd].
  intros [= <-]. reflexivity.
Qed.

Lemma onResolved_continue (a : attempt_env) (st st' : loop_state) (r : Response) :
  snd (onResolved settings w a st r) = Continue st' ->
  attempt st' = S (attempt st).
Proof.
  unfold onResolved. cbv zeta.
  repeat match goal with
         | |- context [if ?b then _ else _] => destruct b
         end;
    try discriminate;
    try (intros H; apply retryWith_continue in H; exact H);
    intros H; apply catchBlock_continue in H; exact H.
Qed.

(** Every iteration that continues has incremented the attempt number. *)
Lemma loopBody_continue (st st' : loop_state) :
  snd (loopBody settings w st) = Continue st' ->
  attempt st' = S (attempt st).
Proof.
  unfold loopBody.
  destruct (aborted_at_start (attempts w (attempt st))); [discriminate|].
  destruct (raceAttempt settings (attempts w (attempt st))) as [r|e].
  - pose proof (onResolved_continue (attempts w (attempt st)) st st' r) as H.
    destruct (onResolved settings w (attempts w (attempt st)) st r).
    exact H.
  - pose proof (catchBlock_continue (attempts w (attempt st)) st st' e) as H.
    destruct (catchBlock settings (attempts w (attempt st)) st e).
    exact H.
Qed.

(** The loop ends within [maxRetries + 1 - attempt] iterations. *)
Lemma fetchLoop_total (fuel : nat) :
  forall st : loop_state,
    Cfg.maxRetries settings + 1 - Z.of_nat (attempt st) <= Z.of_nat fuel ->
    snd (fetchLoop settings w fuel st) <> OutOfFuel.
Proof.
  induction fuel as [|fuel IH]; intros st Hfuel; cbn [fetchLoop].
  - replace (Z.of_nat (attempt st) <=? Cfg.maxRetries settings) with false
      by (symmetry; apply Z.leb_gt; lia).
    discriminate.
  - destruct (Z.of_nat (attempt st) <=? Cfg.maxRetries settings);
      [|discriminate].
    pose proof (loopBody_continue st) as Hnext.
    destruct (loopBody settings w st) as [evs c].
    destruct c as [st'|st'|r|e]; try discriminate.
    cbn [snd prepend]. apply IH.
    specialize (Hnext st' eq_refl). lia.
Qed.

End Termination.

(** The patched fetch always settles: the fuel it gives the loop is
    never used up. *)
Theorem windowFetch_total (settings : Cfg.t) (w : world) :
  snd (windowFetch settings w) <> OutOfFuel.
Proof.
  unfold windowFetch, bypass.
  destruct (negb (Cfg.enabled settings)).
  - destruct (native (attempts w 0)); discriminate.
  - destruct (aborted_at_entry w).
    + destruct (native (attempts w 0)); discriminate.
    + apply fetchLoop_total. cbn [attempt initial_state]. lia.
Qed.

(** * Further properties of the engine *)

(** ** Every run has the shape of [run_shape] *)

Section Shape.

Variable settings : Cfg.t.
Variable w : world.

Lemma isResponseInvalid_valid (id : option Z) (response : Response) (u : string) :
  invalid (isResponseInvalid settings id response u) = false.
Proof.
  unfold isResponseInvalid, streamCheck.
  destruct (Cfg.streamInactivityTimeout settings =? 0); [reflexivity|].
  destruct (negb (isGenerationUrl u)); [reflexivity|].
  destruct (truthy_id id); reflexivity.
Qed.

(** An attempt that starts and is not a retryable failure ends the call:
    a success or a client error is returned, the caller's abort is
    rethrown. *)
Lemma loopBody_terminal (st : loop_state) :
  aborted_at_start (attempts w (attempt st)) = false ->
  retryableFailure settings (attempts w (attempt st)) = false ->
  (exists r, raceAttempt settings (attempts w (attempt st)) = Resolved r
             /\ ok r || clientError r = true
             /\ loopBody settings w st = ([EvFetch (attempt st)], Return r))
  \/ (exists e, raceAttempt settings (attempts w (attempt st)) = Rejected e
                /\ propagatesAbort (attempts w (attempt st)) e = true
                /\ loopBody settings w st = ([EvFetch (attempt st)], Throw e)).
Proof.
  intros Hstart Hnot. unfold retryableFailure in Hnot.
  rewrite Hstart in Hnot. cbn [negb andb] in Hnot.
  unfold loopBody. rewrite Hstart.
  destruct (raceAttempt settings (attempts w (attempt st))) as [r|e].
  - left. exists r. split; [reflexivity|].
    apply orb_false_elim in Hnot. destruct Hnot as [Hnot Hunexp].
    apply orb_false_elim in Hnot. destruct Hnot as [H429 H500].
    unfold onResolved. cbv zeta.
    destruct (ok r) eqn:Hok.
    + split; [reflexivity|].
      rewrite isResponseInvalid_valid. reflexivity.
    + rewrite H429, H500.
      unfold unexpectedStatus in Hunexp. rewrite Hok in Hunexp.
      cbn [negb andb] in Hunexp. apply Z.ltb_ge in Hunexp.
      apply Z.leb_gt in H500.
      replace (400 <=? status r) with true by (symmetry; apply Z.leb_le; lia).
      split; [|reflexivity].
      unfold clientError. rewrite H429.
      replace (400 <=? status r) with true by (symmetry; apply Z.leb_le; lia).
      replace (status r <? 500) with true by (symmetry; apply Z.ltb_lt; lia).
      reflexivity.
  - right. exists e. split; [reflexivity|].
    apply negb_false_iff in Hnot. split; [exact Hnot|].
    rewrite catchBlock_abort by exact Hnot. reflexivity.
Qed.

Lemma fetchLoop_exit (fuel : nat) (st : loop_state) :
  Cfg.maxRetries settings < Z.of_nat (attempt st) ->
  fetchLoop settings w fuel st = afterLoop st.
Proof.
  intros Hgt. destruct fuel; cbn [fetchLoop];
    replace (Z.of_nat (attempt st) <=? Cfg.maxRetries settings) with false
      by (symmetry; apply Z.leb_gt; exact Hgt);
    reflexivity.
Qed.

Lemma fetchLoop_run_shape (fuel : nat) :
  forall st : loop_state,
    Cfg.maxRetries settings + 1 - Z.of_nat (attempt st) <= Z.of_nat fuel ->
    run_shape settings w (attempt st)
              (fst (fetchLoop settings w fuel st))
              (snd (fetchLoop settings w fuel st)).
Proof.
  induction fuel as [|fuel IH]; intros st Hfuel.
  - rewrite fetchLoop_exit by lia. apply shape_no_iteration. lia.
  - destruct (Z.lt_ge_cases (Cfg.maxRetries settings) (Z.of_nat (attempt st)))
      as [Hgt|Hle].
    { rewrite fetchLoop_exit by exact Hgt. apply shape_no_iteration. exact Hgt. }
    destruct (aborted_at_start (attempts w (attempt st))) eqn:Hstart.
    { rewrite fetchLoop_enter by exact Hle.
      rewrite loopBody_aborted by exact Hstart.
      apply shape_abort_at_top; assumption. }
    destruct (retryableFailure settings (attempts w (attempt st))) eqn:Hfail.
    + destruct (Z.lt_ge_cases (Z.of_nat (attempt st)) (Cfg.maxRetries settings))
        as [Hlt|Hge].
      * rewrite fetchLoop_retry by assumption. cbv zeta.
        unfold prepend. cbn [fst snd].
        rewrite <- app_comm_cons.
        apply (shape_retry settings w (attempt st)); [exact Hlt|exact Hfail|].
        match goal with
        | |- context [fetchLoop settings w fuel ?s] =>
            change (S (attempt st)) with (attempt s); apply IH
        end.
        cbn [attempt]. lia.
      * rewrite fetchLoop_last by (try assumption; lia).
        apply shape_exhausted; [lia|exact Hfail].
    + rewrite fetchLoop_enter by exact Hle.
      destruct (loopBody_terminal st Hstart Hfail)
        as [(r & Hrace & Hkind & Hbody)|(e & Hrace & Hp & Hbody)];
        rewrite Hbody.
      * apply shape_return; assumption.
      * apply shape_rethrow; assumption.
Qed.

End Shape.

(** A call that enters the loop runs from attempt 0 with fuel enough
    for its budget. *)
Lemma entered_call_run_shape (settings : Cfg.t) (w : world) :
  Cfg.enabled settings = true ->
  aborted_at_entry w = false ->
  run_shape settings w 0
            (fst (windowFetch settings w)) (snd (windowFetch settings w)).
Proof.
  intros Hen Hentry. unfold windowFetch. rewrite Hen, Hentry. cbn [negb].
  apply (fetchLoop_run_shape settings w _ initial_state).
  cbn [attempt initial_state]. lia.
Qed.

(** X1. Every call that enters the loop runs as [run_shape] says from
    attempt 0: rounds of a native call followed by [handleRetry] for
    consecutive attempts with budget left, closed by the return of a 2xx
    or non-429 4xx response, by the rethrow of the caller's abort, by the
    abort failure at the top of an iteration, or by the error notification
    and the throw of the last error. *)
Theorem windowFetch_run_shape :
  forall (settings : Cfg.t) (w : world),
    Cfg.enabled settings = true ->
    aborted_at_entry w = false ->
    run_shape settings w 0
              (fst (windowFetch settings w)) (snd (windowFetch settings w)).
Proof.
  intros settings w Hen Hentry. unfold windowFetch.
  rewrite Hen, Hentry. cbn [negb].
  apply (fetchLoop_run_shape settings w _ initial_state).
  cbn [attempt initial_state]. lia.
Qed.

Lemma windowFetch_run_shape_witness :
  run_shape scenarioSettings failingWorld 0
            (fst (windowFetch scenarioSettings failingWorld))
            (snd (windowFetch scenarioSettings failingWorld)).
Proof.
  apply windowFetch_run_shape; reflexivity.
Defined.

(** ** What follows from the shape *)

Section ShapeFacts.

Variable settings : Cfg.t.
Variable w : world.

Lemma count_cons (p : event -> bool) (e : event) (tr : list event) :
  count p (e :: tr) = ((if p e then 1 else 0) + count p tr)%nat.
Proof. unfold count. cbn [filter]. destruct (p e); reflexivity. Qed.

Lemma handleRetry_waits_once (error : JsError) (response : option Response)
      (k : nat) :
  count is_wait (fst (handleRetry settings error response k)) = 1%nat.
Proof. rewrite handleRetry_events. destruct k; reflexivity. Qed.

Lemma handleRetry_toasts (error : JsError) (response : option Response)
      (k : nat) :
  count is_retry_toast (fst (handleRetry settings error response k))
  = match k with O => 0%nat | S _ => 1%nat end.
Proof. rewrite handleRetry_events. destruct k; reflexivity. Qed.

(** Attempts are numbered consecutively and stay within the budget; the
    loop makes no native call other than those attempts. *)
Lemma run_shape_fetches (k : nat) (tr : list event) (res : result) :
  run_shape settings w k tr res ->
  exists n,
    fetches tr = seq k n
    /\ count is_native_call tr = n
    /\ (n = 0%nat \/ Z.of_nat (k + n) <= Cfg.maxRetries settings + 1).
Proof.
  induction 1 as [k e r Hgt|k Hle Hab|k r Hle Hst Hrace Hkind
                  |k e Hle Hst Hrace Hp|k r Heq Hfail
                  |k response tr res Hlt Hfail Hrun IH].
  - exists 0%nat. repeat split. left. reflexivity.
  - exists 0%nat. repeat split. left. reflexivity.
  - exists 1%nat. repeat split. right. lia.
  - exists 1%nat. repeat split. right. lia.
  - exists 1%nat. repeat split. right. lia.
  - destruct IH as (n & Hf & Hc & Hb). exists (S n). cbv zeta.
    change (EvFetch k :: ?l) with ([EvFetch k] ++ l).
    rewrite !fetches_app, !count_app, handleRetry_fetches,
      handleRetry_no_native_call, Hf, Hc.
    repeat split. right. destruct Hb as [->|Hb]; lia.
Qed.

(** The error notification comes at most once, last, and with the error
    that the call then throws. *)
Lemma run_shape_notification (k : nat) (tr : list event) (res : result) :
  run_shape settings w k tr res ->
  (count is_error_notification tr <= 1)%nat
  /\ forall e r, In (EvErrorNotification e r) tr ->
                 res = Thrown e
                 /\ exists pre, tr = pre ++ [EvErrorNotification e r]
                                /\ count is_error_notification pre = 0%nat.
Proof.
  induction 1 as [k e r Hgt|k Hle Hab|k r Hle Hst Hrace Hkind
                  |k e Hle Hst Hrace Hp|k r Heq Hfail
                  |k response tr res Hlt Hfail Hrun IH].
  - split; [cbn; lia|]. intros e' r' [[= <- <-]|[]].
    split; [reflexivity|]. exists []. split; reflexivity.
  - split; [cbn; lia|]. intros e' r' [].
  - split; [cbn; lia|]. intros e' r' [Hin|[]]. discriminate Hin.
  - split; [cbn; lia|]. intros e' r' [Hin|[]]. discriminate Hin.
  - cbv zeta. split; [cbn; lia|].
    intros e' r' [Hin|[[= <- <-]|[]]]; [discriminate Hin|].
    split; [reflexivity|]. exists [EvFetch k]. split; reflexivity.
  - cbv zeta. destruct IH as [Hcount Hlast].
    change (EvFetch k :: ?l) with ([EvFetch k] ++ l).
    split.
    + rewrite !count_app, handleRetry_no_error_notification. cbn. exact Hcount.
    + intros e' r' Hin.
      apply in_app_or in Hin. destruct Hin as [[Hin|[]]|Hin];
        [discriminate Hin|].
      apply in_app_or in Hin. destruct Hin as [Hin|Hin].
      * rewrite handleRetry_events in Hin. cbn [fst] in Hin.
        destruct k; cbn in Hin; intuition discriminate.
      * destruct (Hlast e' r' Hin) as (Hres & pre & Htr & Hpre).
        split; [exact Hres|].
        exists ([EvFetch k]
                  ++ fst (handleRetry settings
                            (failureError (raceAttempt settings (attempts w k)))
                            response k)
                  ++ pre).
        split.
        -- rewrite Htr. repeat rewrite <- app_assoc. reflexivity.
        -- rewrite !count_app, handleRetry_no_error_notification, Hpre.
           reflexivity.
Qed.

(** A toast is shown for attempt [a] only when [0 < a < maxRetries], with
    the error of that attempt; waits are as many as the attempts that are
    retried, and all but the wait after attempt 0 come with a toast. *)
Lemma run_shape_toasts (k : nat) (tr : list event) (res : result) :
  run_shape settings w k tr res ->
  (forall a m e,
      In (EvRetryToast a m e) tr ->
      (0 < a)%nat /\ (k <= a)%nat
      /\ Z.of_nat a < Cfg.maxRetries settings
      /\ m = Cfg.maxRetries settings
      /\ e = failureError (raceAttempt settings (attempts w a)))
  /\ (count is_retry_toast tr
      = match k with
        | O => Nat.pred (count is_wait tr)
        | S _ => count is_wait tr
        end)
  /\ (Z.of_nat k + Z.of_nat (count is_wait tr)
      <= Z.max (Z.of_nat k) (Cfg.maxRetries settings)).
Proof.
  induction 1 as [k e r Hgt|k Hle Hab|k r Hle Hst Hrace Hkind
                  |k e Hle Hst Hrace Hp|k r Heq Hfail
                  |k response tr res Hlt Hfail Hrun IH];
    try (split; [intros a m e' Hin; cbn in Hin; intuition discriminate
                |split; [destruct k; reflexivity|cbn; lia]]).
  cbv zeta. destruct IH as (Hin & Hcount & Hbound).
  change (EvFetch k :: ?l) with ([EvFetch k] ++ l).
  split; [|split].
  - intros a m e' H.
    apply in_app_or in H. destruct H as [[H|[]]|H]; [discriminate H|].
    apply in_app_or in H. destruct H as [H|H].
    + rewrite handleRetry_events in H. cbn [fst] in H.
      destruct k as [|k']; cbn in H.
      * intuition discriminate.
      * destruct H as [[= <- <- <-]|[H|[]]]; [|discriminate H].
        repeat split; try lia.
    + destruct (Hin a m e' H) as (H0 & Hk & Hrest).
      repeat split; try lia; apply Hrest.
  - rewrite !count_app, handleRetry_toasts, handleRetry_waits_once, Hcount.
    cbn. destruct k; reflexivity.
  - rewrite !count_app, handleRetry_waits_once.
    change (count is_wait [EvFetch k]) with 0%nat.
    lia.
Qed.



(** What the loop returns is the response of its last native call, a
    success or a client error other than 429. *)
Lemma run_shape_returned (k : nat) (tr : list event) (res : result) :
  run_shape settings w k tr res ->
  forall r, res = Returned r ->
            ok r || clientError r = true
            /\ exists j pre,
                tr = pre ++ [EvFetch j]
                /\ raceAttempt settings (attempts w j) = Resolved r.
Proof.
  induction 1 as [k e r Hgt|k Hle Hab|k r Hle Hst Hrace Hkind
                  |k e Hle Hst Hrace Hp|k r Heq Hfail
                  |k response tr res Hlt Hfail Hrun IH];
    intros r' Hres; try discriminate Hres.
  - injection Hres as <-. split; [exact Hkind|].
    exists k, []. split; [reflexivity|exact Hrace].
  - cbv zeta. destruct (IH r' Hres) as (Hkind & j & pre & Htr & Hrace).
    split; [exact Hkind|].
    exists j.
    exists (EvFetch k
              :: fst (handleRetry settings
                        (failureError (raceAttempt settings (attempts w k)))
                        response k)
              ++ pre).
    split; [|exact Hrace].
    rewrite Htr, <- app_comm_cons, <- app_assoc. reflexivity.
Qed.

End ShapeFacts.

(** X2. Whatever the platform does, the native calls of the loop are the
    attempts 0, 1, ..., n-1 in this order, without gap or repeat, with
    [n <= maxRetries + 1] (none at all for a negative [maxRetries]); a
    bypassed call makes the single pass-through call instead. *)
Theorem native_calls_within_budget :
  forall (settings : Cfg.t) (w : world),
  exists n : nat,
    fetches (fst (windowFetch settings w)) = seq 0 n
    /\ Z.of_nat n <= Z.max 0 (Cfg.maxRetries settings + 1)
    /\ count is_native_call (fst (windowFetch settings w))
       = if negb (Cfg.enabled settings) || aborted_at_entry w
         then 1%nat else n.
Proof.
  intros settings w.
  destruct (Cfg.enabled settings) eqn:Hen;
    [destruct (aborted_at_entry w) eqn:Hentry|].
  - exists 0%nat. unfold windowFetch. rewrite Hen, Hentry.
    repeat split. lia.
  - destruct (run_shape_fetches settings w 0 _ _
                (entered_call_run_shape settings w Hen Hentry))
      as (n & Hf & Hc & Hb).
    exists n. repeat split; [exact Hf| |exact Hc].
    destruct Hb as [->|Hb]; lia.
  - exists 0%nat. unfold windowFetch. rewrite Hen.
    repeat split. lia.
Qed.

(** X3. The error notification is invoked at most once per call; when it
    is, it is the last thing the call does and the call throws the very
    error it was given.  So a call that returns a response invokes none. *)
Theorem error_notification_once_and_last :
  forall (settings : Cfg.t) (w : world),
    (count is_error_notification (fst (windowFetch settings w)) <= 1)%nat
    /\ forall e r,
         In (EvErrorNotification e r) (fst (windowFetch settings w)) ->
         snd (windowFetch settings w) = Thrown e
         /\ exists pre,
             fst (windowFetch settings w) = pre ++ [EvErrorNotification e r]
             /\ count is_error_notification pre = 0%nat.
Proof.
  intros settings w.
  destruct (Cfg.enabled settings) eqn:Hen;
    [destruct (aborted_at_entry w) eqn:Hentry|].
  - unfold windowFetch. rewrite Hen, Hentry. cbn [negb bypass fst].
    split; [cbn; lia|]. intros e r [Hin|[]]. discriminate Hin.
  - apply (run_shape_notification settings w 0).
    apply entered_call_run_shape; assumption.
  - unfold windowFetch. rewrite Hen. cbn [negb bypass fst].
    split; [cbn; lia|]. intros e r [Hin|[]]. discriminate Hin.
Qed.

Lemma error_notification_once_and_last_witness :
  snd (windowFetch scenarioSettings scenarioWorld)
  = Thrown (Some (Error "Rate limited (429): Too Many Requests")).
Proof.
  apply (proj2 (error_notification_once_and_last scenarioSettings scenarioWorld)
               (Some (Error "Rate limited (429): Too Many Requests"))
               (Some r429)).
  vm_compute. tauto.
Defined.

(** X4. A retry toast for attempt [a] is shown only when
    [0 < a < maxRetries], with [maxRetries] and the error of that attempt:
    [retry 0/N] and [retry N/N] are never shown, and with [maxRetries <= 1]
    no toast at all.  A call shows one toast fewer than it waits, and it
    waits at most [maxRetries] times. *)
Theorem retry_toasts_of_a_call :
  forall (settings : Cfg.t) (w : world),
    (forall a m e,
        In (EvRetryToast a m e) (fst (windowFetch settings w)) ->
        (0 < a)%nat
        /\ Z.of_nat a < Cfg.maxRetries settings
        /\ m = Cfg.maxRetries settings
        /\ e = failureError (raceAttempt settings (attempts w a)))
    /\ count is_retry_toast (fst (windowFetch settings w))
       = Nat.pred (count is_wait (fst (windowFetch settings w)))
    /\ Z.of_nat (count is_wait (fst (windowFetch settings w)))
       <= Z.max 0 (Cfg.maxRetries settings).
Proof.
  intros settings w.
  assert (Hbypass : forall tr, tr = [EvBypass] ->
            (forall a m e, In (EvRetryToast a m e) tr ->
               (0 < a)%nat /\ Z.of_nat a < Cfg.maxRetries settings
               /\ m = Cfg.maxRetries settings
               /\ e = failureError (raceAttempt settings (attempts w a)))
            /\ count is_retry_toast tr = Nat.pred (count is_wait tr)
            /\ Z.of_nat (count is_wait tr) <= Z.max 0 (Cfg.maxRetries settings)).
  { intros tr ->. split; [|split; [reflexivity|cbn; lia]].
    intros a m e [Hin|[]]. discriminate Hin. }
  destruct (Cfg.enabled settings) eqn:Hen;
    [destruct (aborted_at_entry w) eqn:Hentry|].
  - apply Hbypass. unfold windowFetch. rewrite Hen, Hentry. reflexivity.
  - destruct (run_shape_toasts settings w 0 _ _
                (entered_call_run_shape settings w Hen Hentry))
      as (Hin & Hcount & Hbound).
    split; [|split; [exact Hcount|exact Hbound]].
    intros a m e H. destruct (Hin a m e H) as (H0 & _ & Hrest).
    split; [exact H0|exact Hrest].
  - apply Hbypass. unfold windowFetch. rewrite Hen. reflexivity.
Qed.

Lemma retry_toasts_of_a_call_witness :
  (0 < 1)%nat
  /\ Z.of_nat 1 < Cfg.maxRetries scenarioSettings
  /\ 2 = Cfg.maxRetries scenarioSettings
  /\ Error "Rate limited (429): Too Many Requests"
     = failureError (raceAttempt scenarioSettings (attempts scenarioWorld 1)).
Proof.
  apply (proj1 (retry_toasts_of_a_call scenarioSettings scenarioWorld)
               1%nat 2 (Error "Rate limited (429): Too Many Requests")).
  vm_compute. tauto.
Defined.



(** X6. When the loop returns a response, it is the one that its last
    native call resolved with, and it is a 2xx or a 4xx other than 429:
    a 429, a 5xx or a status below 400 outside 2xx is never handed back
    to the caller. *)
Theorem returned_response_is_success_or_client_error :
  forall (settings : Cfg.t) (w : world) (r : Response),
    Cfg.enabled settings = true ->
    aborted_at_entry w = false ->
    snd (windowFetch settings w) = Returned r ->
    ok r || clientError r = true
    /\ exists j pre,
        fst (windowFetch settings w) = pre ++ [EvFetch j]
        /\ raceAttempt settings (attempts w j) = Resolved r.
Proof.
  intros settings w r Hen Hentry Hres.
  apply (run_shape_returned settings w 0 _ _
           (entered_call_run_shape settings w Hen Hentry) r Hres).
Qed.

Lemma returned_response_is_success_or_client_error_witness :
  ok r200 || clientError r200 = true
  /\ exists j pre,
      fst (windowFetch Cfg.default firstFailureWorld) = pre ++ [EvFetch j]
      /\ raceAttempt Cfg.default (attempts firstFailureWorld j) = Resolved r200.
Proof.
  apply (returned_response_is_success_or_client_error
           Cfg.default firstFailureWorld r200);
    reflexivity.
Defined.

(** X7. With a negative [maxRetries] an enabled call makes no native call
    at all: it invokes the error notification with no error and no
    response and throws [undefined]. *)
Theorem negative_maxRetries_never_fetches :
  forall (settings : Cfg.t) (w : world),
    Cfg.enabled settings = true ->
    aborted_at_entry w = false ->
    Cfg.maxRetries settings < 0 ->
    windowFetch settings w = ([EvErrorNotification None None], Thrown None).
Proof.
  intros settings w Hen Hentry Hneg. unfold windowFetch.
  rewrite Hen, Hentry. cbn [negb].
  rewrite fetchLoop_exit by (cbn [attempt initial_state]; lia).
  reflexivity.
Qed.

Lemma negative_maxRetries_never_fetches_witness :
  windowFetch negativeRetriesSettings scenarioWorld
  = ([EvErrorNotification None None], Thrown None).
Proof.
  apply negative_maxRetries_never_fetches; reflexivity.
Defined.

(** ** Success after retries *)

Section Recovery.

Variable settings : Cfg.t.
Variable w : world.

Lemma returnable_is_not_retryable (k : nat) (r : Response) :
  raceAttempt settings (attempts w k) = Resolved r ->
  ok r || clientError r = true ->
  retryableFailure settings (attempts w k) = false.
Proof.
  intros Hrace Hkind. unfold retryableFailure. rewrite Hrace.
  apply andb_false_intro2. revert Hkind.
  unfold unexpectedStatus, clientError, ok.
  destruct (Z.eqb_spec (status r) 429) as [E|N];
    destruct (Z.leb_spec 500 (status r));
    destruct (Z.leb_spec 200 (status r));
    destruct (Z.leb_spec (status r) 299);
    destruct (Z.leb_spec 400 (status r));
    destruct (Z.ltb_spec (status r) 500);
    destruct (Z.ltb_spec (status r) 400);
    cbn; intros Hkind; try reflexivity; try discriminate; lia.
Qed.

(** From any state, [n] retryable failures followed by an attempt that
    resolves with a success or a client error: the response is returned
    after [n + 1] native calls and [n] waits, with no error
    notification. *)
Lemma fetchLoop_recovers (n : nat) :
  forall (fuel : nat) (st : loop_state) (r : Response),
    Z.of_nat (attempt st + n) <= Cfg.maxRetries settings ->
    (n < fuel)%nat ->
    (forall j, (attempt st <= j < attempt st + n)%nat ->
               retryableFailure settings (attempts w j) = true) ->
    aborted_at_start (attempts w (attempt st + n)) = false ->
    raceAttempt settings (attempts w (attempt st + n)) = Resolved r ->
    ok r || clientError r = true ->
    exists tr,
      fetchLoop settings w fuel st = (tr, Returned r)
      /\ fetches tr = seq (attempt st) (S n)
      /\ count is_wait tr = n
      /\ count is_error_notification tr = 0%nat.
Proof.
  induction n as [|m IH]; intros fuel st r Hmax Hfuel Hfail Hstart Hrace Hkind.
  - destruct fuel as [|fuel]; [lia|]. rewrite Nat.add_0_r in *.
    rewrite fetchLoop_enter by lia.
    destruct (loopBody_terminal settings w st Hstart
                (returnable_is_not_retryable _ r Hrace Hkind))
      as [(r' & Hrace' & _ & Hbody)|(e & Hrace' & _)]; [|congruence].
    rewrite Hbody. exists [EvFetch (attempt st)].
    repeat split. congruence.
  - destruct fuel as [|fuel]; [lia|].
    rewrite fetchLoop_retry by (try (apply Hfail); lia). cbv zeta.
    set (o := raceAttempt settings (attempts w (attempt st))) in *.
    set (st' := mkState (S (attempt st)) (lastErrorOnRetry st o)
                        (responseForDelay st o)).
    set (evs := fst (handleRetry settings (failureError o)
                                 (responseForDelay st o) (attempt st))).
    assert (Hidx : (attempt st' + m = attempt st + S m)%nat)
      by (unfold st'; cbn [attempt]; lia).
    specialize (IH fuel st' r). rewrite Hidx in IH.
    change (attempt st') with (S (attempt st)) in IH.
    destruct IH as (tr & Hrun & Hf & Hw & He); try assumption; try lia.
    { intros j Hj. apply Hfail. lia. }
    rewrite Hrun. unfold prepend. cbn [fst snd].
    exists ((EvFetch (attempt st) :: evs) ++ tr).
    split; [reflexivity|].
    change (EvFetch (attempt st) :: evs) with ([EvFetch (attempt st)] ++ evs).
    rewrite !fetches_app, !count_app. unfold evs.
    rewrite handleRetry_fetches, handleRetry_waits_once,
      handleRetry_no_error_notification, Hf, Hw, He.
    repeat split.
Qed.

(** When the loop goes on or is left by [break], [lastResponse] holds
    nothing or a response that was retried; so does the response handed
    to the error notification. *)
Lemma fetchLoop_notifies_retained (fuel : nat) :
  forall st : loop_state,
    retained (lastResponse st) ->
    forall e r,
      In (EvErrorNotification e r) (fst (fetchLoop settings w fuel st)) ->
      retained r.
Proof.
  induction fuel as [|fuel IH]; intros st Hinv e r Hin.
  - cbn [fetchLoop] in Hin.
    destruct (Z.of_nat (attempt st) <=? Cfg.maxRetries settings);
      cbn in Hin; [contradiction|].
    destruct Hin as [[= <- <-]|[]]. exact Hinv.
  - destruct (Z.lt_ge_cases (Cfg.maxRetries settings) (Z.of_nat (attempt st)))
      as [Hgt|Hle].
    { rewrite fetchLoop_exit in Hin by exact Hgt.
      destruct Hin as [[= <- <-]|[]]. exact Hinv. }
    destruct (aborted_at_start (attempts w (attempt st))) eqn:Hstart.
    { rewrite fetchLoop_enter, loopBody_aborted in Hin by assumption.
      contradiction. }
    destruct (retryableFailure settings (attempts w (attempt st))) eqn:Hfail.
    + assert (Hnext : retained (responseForDelay st
                         (raceAttempt settings (attempts w (attempt st))))).
      { unfold retryableFailure in Hfail. rewrite Hstart in Hfail.
        cbn [negb andb] in Hfail.
        destruct (raceAttempt settings (attempts w (attempt st))) as [r0|e0];
          [|exact Hinv].
        cbn [responseForDelay retained]. revert Hfail.
        unfold unexpectedStatus, clientError, ok.
        destruct (Z.eqb_spec (status r0) 429) as [E|N];
          destruct (Z.leb_spec 500 (status r0));
          destruct (Z.leb_spec 200 (status r0));
          destruct (Z.leb_spec (status r0) 299);
          destruct (Z.leb_spec 400 (status r0));
          destruct (Z.ltb_spec (status r0) 500);
          destruct (Z.ltb_spec (status r0) 400);
          cbn; intros Hfail; try discriminate;
          try (split; reflexivity); lia. }
      destruct (Z.lt_ge_cases (Z.of_nat (attempt st)) (Cfg.maxRetries settings))
        as [Hlt|Hge].
      * rewrite fetchLoop_retry in Hin by assumption. cbv zeta in Hin.
        unfold prepend in Hin. cbn [fst] in Hin.
        destruct Hin as [Hin|Hin]; [discriminate Hin|].
        apply in_app_or in Hin. destruct Hin as [Hin|Hin].
        -- rewrite handleRetry_events in Hin. cbn [fst] in Hin.
           destruct (attempt st); cbn in Hin; intuition discriminate.
        -- eapply IH; [|exact Hin]. exact Hnext.
      * rewrite fetchLoop_last in Hin by (try assumption; lia).
        cbv zeta in Hin.
        destruct Hin as [Hin|[[= <- <-]|[]]]; [discriminate Hin|exact Hnext].
    + rewrite fetchLoop_enter in Hin by exact Hle.
      destruct (loopBody_terminal settings w st Hstart Hfail)
        as [(r0 & _ & _ & Hbody)|(e0 & _ & _ & Hbody)];
        rewrite Hbody in Hin; destruct Hin as [Hin|[]]; discriminate Hin.
Qed.

End Recovery.

(** X8. If the first [k] attempts of a call are retryable failures and
    attempt [k <= maxRetries] resolves with a 2xx or a 4xx other than 429,
    the call returns that response after exactly [k + 1] native calls and
    [k] waits, shows [k - 1] retry toasts and never invokes the error
    notification. *)
Theorem recovery_after_retries :
  forall (settings : Cfg.t) (w : world) (k : nat) (r : Response),
    Cfg.enabled settings = true ->
    aborted_at_entry w = false ->
    Z.of_nat k <= Cfg.maxRetries settings ->
    (forall j, (j < k)%nat -> retryableFailure settings (attempts w j) = true) ->
    aborted_at_start (attempts w k) = false ->
    raceAttempt settings (attempts w k) = Resolved r ->
    ok r || clientError r = true ->
    snd (windowFetch settings w) = Returned r
    /\ fetches (fst (windowFetch settings w)) = seq 0 (S k)
    /\ count is_wait (fst (windowFetch settings w)) = k
    /\ count is_retry_toast (fst (windowFetch settings w)) = Nat.pred k
    /\ count is_error_notification (fst (windowFetch settings w)) = 0%nat.
Proof.
  intros settings w k r Hen Hentry Hle Hfail Hstart Hrace Hkind.
  pose proof (run_shape_toasts settings w 0 _ _
                (entered_call_run_shape settings w Hen Hentry))
    as (_ & Htoasts & _).
  revert Htoasts. unfold windowFetch. rewrite Hen, Hentry. cbn [negb].
  destruct (fetchLoop_recovers settings w k
              (Z.to_nat (Cfg.maxRetries settings + 1)) initial_state r)
    as (tr & Hrun & Hf & Hw & He);
    try assumption; cbn [attempt initial_state Nat.add]; try lia.
  - intros j Hj. apply Hfail. lia.
  - rewrite Hrun. cbn [fst snd]. intros Htoasts.
    rewrite Htoasts, Hw. repeat split; assumption.
Qed.

Lemma recovery_after_retries_witness :
  snd (windowFetch Cfg.default staleWorld) = Returned r200
  /\ fetches (fst (windowFetch Cfg.default staleWorld)) = [0; 1; 2]%nat
  /\ count is_wait (fst (windowFetch Cfg.default staleWorld)) = 2%nat
  /\ count is_retry_toast (fst (windowFetch Cfg.default staleWorld)) = 1%nat
  /\ count is_error_notification (fst (windowFetch Cfg.default staleWorld)) = 0%nat.
Proof.
  apply (recovery_after_retries Cfg.default staleWorld 2 r200);
    try reflexivity.
  - vm_compute. discriminate.
  - intros j Hj. destruct j as [|[|j]]; [reflexivity|reflexivity|lia].
Defined.

(** X9. The response handed to the error notification is absent or is a
    response that was retried (a 429, a 5xx or a status below 400 outside
    2xx), never a success nor another 4xx; so the notification never
    reads [Forbidden (403): Access denied]. *)
Theorem error_notification_never_reports_client_error :
  forall (settings : Cfg.t) (w : world) (e : option JsError)
         (r : option Response),
    In (EvErrorNotification e r) (fst (windowFetch settings w)) ->
    retained r
    /\ showErrorNotification settings e r
       <> Some "Forbidden (403): Access denied"%string.
Proof.
  intros settings w e r Hin.
  assert (Hret : retained r).
  { unfold windowFetch, bypass in Hin.
    destruct (negb (Cfg.enabled settings));
      [destruct Hin as [Hin|[]]; discriminate Hin|].
    destruct (aborted_at_entry w);
      [destruct Hin as [Hin|[]]; discriminate Hin|].
    eapply fetchLoop_notifies_retained; [|exact Hin]. exact I. }
  split; [exact Hret|].
  unfold showErrorNotification, errorNotificationMessage.
  destruct (negb (Cfg.showErrorNotification settings)); [discriminate|].
  destruct r as [resp|].
  - destruct Hret as [_ Hclient]. unfold clientError in Hclient.
    destruct (Z.eqb_spec (status resp) 429); [discriminate|].
    destruct (Z.leb_spec 500 (status resp)); [discriminate|].
    destruct (Z.eqb_spec (status resp) 403) as [E403|]; [|discriminate].
    rewrite E403 in Hclient. discriminate Hclient.
  - destruct e as [err|]; [|discriminate].
    destruct (name_is err "TimeoutError"); [discriminate|].
    destruct (name_is err "AbortError"); discriminate.
Qed.

Lemma error_notification_never_reports_client_error_witness :
  retained (Some r429)
  /\ showErrorNotification scenarioSettings
       (Some (Error "Rate limited (429): Too Many Requests")) (Some r429)
     <> Some "Forbidden (403): Access denied"%string.
Proof.
  apply (error_notification_never_reports_client_error
           scenarioSettings scenarioWorld).
  vm_compute. tauto.
Defined.

(** ** The reach of the [Retry-After] header *)

Section RetryAfter.

Variable settings : Cfg.t.

Local Open Scope Q_scope.

Lemma Qmax_keeps_left (x y : Q) : y <= x -> Qmax x y = x.
Proof.
  intros Hle. unfold Qmax, GenericMinMax.gmax.
  destruct (x ?= y) eqn:Hcmp; try reflexivity.
  apply Qlt_alt in Hcmp. exfalso. exact (Qle_not_lt _ _ Hle Hcmp).
Qed.

Lemma retryAfterFloor_le (delay bound : Q) (response : option Response) :
  delay <= bound -> 30000 <= bound ->
  retryAfterFloor delay response <= bound.
Proof.
  intros Hd Hb. rewrite retryAfterFloor_seconds.
  destruct (retryAfterSeconds response); [|exact Hd].
  apply Q.max_lub; [exact Hd|].
  eapply Qle_trans; [apply Q.le_min_r|exact Hb].
Qed.

(** A header that gives no seconds, or seconds that do not exceed the
    floor, leaves the delay as it is without the header. *)
Lemma retry_after_below_floor (error : JsError) (r : Response) (attempt : nat) :
  (retryAfterSeconds (Some r) = None
   \/ exists seconds, retryAfterSeconds (Some r) = Some seconds
                      /\ inject_Z seconds * 1000 <= Cfg.minRetryDelay settings) ->
  getRetryDelay settings error (Some r) attempt
  = getRetryDelay settings error (Some (without_headers r)) attempt.
Proof.
  intros Hcase. unfold getRetryDelay.
  assert (Hfloor : retryAfterFloor (Cfg.minRetryDelay settings) (Some r)
                   = Cfg.minRetryDelay settings).
  { rewrite retryAfterFloor_seconds.
    destruct Hcase as [->|(seconds & -> & Hle)]; [reflexivity|].
    apply Qmax_keeps_left.
    eapply Qle_trans; [apply Q.le_min_l|exact Hle]. }
  rewrite Hfloor. reflexivity.
Qed.

Lemma parseInt_letter (c : ascii) (rest : string) :
  is_letter c = true -> JS.parseInt (String c rest) = None.
Proof.
  destruct c as [b0 b1 b2 b3 b4 b5 b6 b7].
  destruct b0, b1, b2, b3, b4, b5, b6, b7;
    intros H; try discriminate H; reflexivity.
Qed.

End RetryAfter.

(** X10. The [Retry-After] header never contributes more than 30000 ms:
    the delay stays below any bound that holds for [minRetryDelay], for
    30000, for the generic backoff and, on a 429, for the rate-limit
    backoff, however many seconds the header announces. *)
Theorem retry_after_is_capped :
  forall (settings : Cfg.t) (error : JsError) (response : option Response)
         (attempt : nat) (bound : Q),
    (Cfg.minRetryDelay settings <= bound)%Q ->
    (30000 <= bound)%Q ->
    (isRateLimited response = true ->
     Cfg.rateLimitDelay settings * (3#2) ^ Z.of_nat attempt <= bound)%Q ->
    (Cfg.retryDelay settings * (6#5) ^ Z.of_nat attempt <= bound)%Q ->
    (getRetryDelay settings error response attempt <= bound)%Q.
Proof.
  intros settings error response attempt bound Hmin Hcap Hrate Hgen.
  unfold getRetryDelay. apply Q.max_lub; [|exact Hgen].
  rewrite rateLimitFloor_isRateLimited.
  destruct (isRateLimited response).
  - apply Q.max_lub; [|apply Hrate; reflexivity].
    apply retryAfterFloor_le; assumption.
  - apply retryAfterFloor_le; assumption.
Qed.

(** At the default settings a 503 announcing an hour waits 30 seconds on
    the first attempt. *)
Lemma retry_after_is_capped_witness :
  (getRetryDelay Cfg.default networkError (Some r503_retry_after_3600) 0
   <= 30000)%Q.
Proof.
  apply retry_after_is_capped.
  - discriminate.
  - discriminate.
  - intros H. discriminate H.
  - discriminate.
Defined.

(** X11. A [Retry-After] header whose value starts with a letter, as an
    HTTP date does, is ignored: the delay is the one of the same response
    without headers. *)
Theorem retry_after_http_date_is_ignored :
  forall (settings : Cfg.t) (error : JsError) (r : Response) (attempt : nat)
         (c : ascii) (rest : string),
    headers_get (headers r) "Retry-After" = Some (String c rest) ->
    is_letter c = true ->
    retryAfterSeconds (Some r) = None
    /\ getRetryDelay settings error (Some r) attempt
       = getRetryDelay settings error (Some (without_headers r)) attempt.
Proof.
  intros settings error r attempt c rest Hget Hletter.
  assert (Hnone : retryAfterSeconds (Some r) = None).
  { cbn [retryAfterSeconds]. rewrite Hget. apply parseInt_letter. exact Hletter. }
  split; [exact Hnone|].
  apply retry_after_below_floor. left. exact Hnone.
Qed.

Lemma retry_after_http_date_is_ignored_witness :
  retryAfterSeconds (Some r503_retry_after_date) = None
  /\ getRetryDelay Cfg.default networkError (Some r503_retry_after_date) 2
     = getRetryDelay Cfg.default networkError
                     (Some (without_headers r503_retry_after_date)) 2.
Proof.
  apply (retry_after_http_date_is_ignored
           Cfg.default networkError r503_retry_after_date 2
           "W"%char "ed, 21 Oct 2015 07:28:00 GMT"%string);
    reflexivity.
Defined.

(** X12. With a non-negative [minRetryDelay], a [Retry-After] of zero or
    of a negative number of seconds changes nothing: the delay is the one
    of the same response without headers. *)
Theorem retry_after_non_positive_is_ignored :
  forall (settings : Cfg.t) (error : JsError) (r : Response) (attempt : nat)
         (seconds : Z),
    (0 <= Cfg.minRetryDelay settings)%Q ->
    retryAfterSeconds (Some r) = Some seconds ->
    seconds <= 0 ->
    getRetryDelay settings error (Some r) attempt
    = getRetryDelay settings error (Some (without_headers r)) attempt.
Proof.
  intros settings error r attempt seconds Hmin Hsec Hneg.
  apply retry_after_below_floor. right. exists seconds.
  split; [exact Hsec|].
  eapply Qle_trans; [|exact Hmin].
  unfold Qle, inject_Z. cbn. nia.
Qed.

Lemma retry_after_non_positive_is_ignored_witness :
  getRetryDelay Cfg.default networkError
                (Some (mkResponse 503 "Busy" [("Retry-After", "-5")]%string)) 1
  = getRetryDelay Cfg.default networkError
                  (Some (without_headers
                           (mkResponse 503 "Busy" [("Retry-After", "-5")]%string))) 1.
Proof.
  apply (retry_after_non_positive_is_ignored
           Cfg.default networkError
           (mkResponse 503 "Busy" [("Retry-After", "-5")]%string) 1 (-5)).
  - discriminate.
  - reflexivity.
  - lia.
Defined.

(** * Loading and saving the settings *)

Section SettingsFacts.

Variable StringToNumber : string -> number.

Lemma get_set_same (o : object) (k : string) (v : value) :
  get (set o k v) k = v.
Proof.
  induction o as [|[k' v'] rest IH]; cbn [set get].
  - rewrite String.eqb_refl. reflexivity.
  - destruct (String.eqb k' k) eqn:Hk; cbn [get].
    + rewrite String.eqb_refl. reflexivity.
    + rewrite Hk. exact IH.
Qed.

Lemma get_set_other (o : object) (k k' : string) (v : value) :
  k <> k' -> get (set o k v) k' = get o k'.
Proof.
  intros Hne. induction o as [|[k0 v0] rest IH]; cbn [set get].
  - apply String.eqb_neq in Hne. rewrite Hne. reflexivity.
  - destruct (String.eqb k0 k) eqn:Hk; cbn [get].
    + apply String.eqb_eq in Hk. subst k0.
      apply String.eqb_neq in Hne. rewrite Hne. reflexivity.
    + destruct (String.eqb k0 k'); [reflexivity|exact IH].
Qed.

(** One entry rewrites its own key and no other. *)
Lemma loadSetting_get (s current : object) (e : setting) (k : string) :
  get (loadSetting StringToNumber s current e) k
  = if String.eqb (varId e) k
    then loadedValue StringToNumber s (get current k) e
    else get current k.
Proof.
  unfold loadSetting, loadedValue.
  destruct (String.eqb (varId e) k) eqn:Hk.
  - apply String.eqb_eq in Hk. subst k.
    destruct (negb (is_undefined (get s (varId e)))).
    + apply get_set_same.
    + destruct (is_undefined (get current (varId e)));
        [apply get_set_same|reflexivity].
  - apply String.eqb_neq in Hk.
    destruct (negb (is_undefined (get s (varId e)))).
    + apply get_set_other. exact Hk.
    + destruct (is_undefined (get current (varId e)));
        [apply get_set_other; exact Hk|reflexivity].
Qed.

Lemma entry_for_absent (table : list setting) (k : string) :
  ~ In k (map varId table) -> entry_for table k = None.
Proof.
  unfold entry_for. induction table as [|e rest IH]; intros Hnot; cbn [find].
  - reflexivity.
  - destruct (String.eqb (varId e) k) eqn:Hk.
    + apply String.eqb_eq in Hk. exfalso. apply Hnot. left. exact Hk.
    + apply IH. intros Hin. apply Hnot. right. exact Hin.
Qed.

(** Over a table without repeated keys, each key is rewritten by its own
    entry, from the value it held before the loop. *)
Lemma loadSettingsFrom_get (table : list setting) :
  NoDup (map varId table) ->
  forall (s current : object) (k : string),
    get (loadSettingsFrom StringToNumber table (Some s) current) k
    = match entry_for table k with
      | Some e => loadedValue StringToNumber s (get current k) e
      | None => get current k
      end.
Proof.
  unfold loadSettingsFrom, entry_for.
  induction table as [|e rest IH]; intros Hnodup s current k; cbn [fold_left find].
  - reflexivity.
  - inversion Hnodup as [|x l Hnotin Hrest]; subst.
    rewrite IH by exact Hrest.
    rewrite loadSetting_get.
    destruct (String.eqb (varId e) k) eqn:Hk.
    + apply String.eqb_eq in Hk. subst k.
      fold (entry_for rest (varId e)).
      rewrite entry_for_absent by exact Hnotin. reflexivity.
    + reflexivity.
Qed.

Lemma customSettings_keys_distinct : NoDup (map varId customSettings).
Proof.
  cbn. repeat constructor; cbn; intuition discriminate.
Qed.

Lemma entry_for_In (table : list setting) (e : setting) :
  NoDup (map varId table) -> In e table ->
  entry_for table (varId e) = Some e.
Proof.
  unfold entry_for. induction table as [|e0 rest IH]; intros Hnodup Hin;
    [contradiction|].
  inversion Hnodup as [|x l Hnotin Hrest]; subst. cbn [find].
  destruct Hin as [->|Hin].
  - rewrite String.eqb_refl. reflexivity.
  - destruct (String.eqb (varId e0) (varId e)) eqn:Hk.
    + apply String.eqb_eq in Hk. exfalso. apply Hnotin. rewrite Hk.
      apply in_map. exact Hin.
    + apply IH; assumption.
Qed.

Lemma coerce_well_typed (e : setting) (v : value) :
  (type e = "checkbox"%string /\ exists b, v = VBool b)
  \/ (type e = "slider"%string /\ exists n, v = VNumber n) ->
  coerce StringToNumber e v = v.
Proof.
  unfold coerce. intros [[-> [b ->]]|[-> [n ->]]]; reflexivity.
Qed.

(** The loop of [initExtension] fills the keys that are undefined and
    keeps the others. *)
Lemma fill_get (defaults : object) (ks : list string) :
  forall (o : object) (k : string),
    get (fold_left (fun o key =>
                      if is_undefined (get o key)
                      then set o key (get defaults key)
                      else o) ks o) k
    = if existsb (String.eqb k) ks && is_undefined (get o k)
      then get defaults k
      else get o k.
Proof.
  induction ks as [|key rest IH]; intros o k; cbn [fold_left existsb].
  - reflexivity.
  - rewrite IH.
    destruct (String.eqb k key) eqn:Hk.
    + apply String.eqb_eq in Hk. subst key. cbn [orb].
      destruct (is_undefined (get o k)) eqn:Hu.
      * rewrite get_set_same.
        destruct (existsb (String.eqb k) rest && is_undefined (get defaults k));
          reflexivity.
      * rewrite Hu, andb_false_r. reflexivity.
    + cbn [orb].
      assert (Hsame : get (if is_undefined (get o key)
                           then set o key (get defaults key) else o) k
                      = get o k).
      { destruct (is_undefined (get o key)); [|reflexivity].
        apply get_set_other. intros ->. rewrite String.eqb_refl in Hk.
        discriminate Hk. }
      rewrite Hsame. reflexivity.
Qed.

Lemma defaultSettings_get (e : setting) :
  In e customSettings ->
  get defaultSettings (varId e) = default e
  /\ is_undefined (default e) = false
  /\ existsb (String.eqb (varId e)) (keys defaultSettings) = true.
Proof.
  intros Hin. cbn in Hin.
  repeat (destruct Hin as [<-|Hin]; [repeat split|]).
  contradiction.
Qed.

End SettingsFacts.

(** X13. [loadSettings] with a truthy argument rewrites the ten keys of
    [customSettings] and nothing else, each key on its own: a stored
    value that is not [undefined] is converted by the type of the entry
    ([Boolean] for a checkbox, [Number] for a slider, without clamping to
    the slider's range); otherwise an [undefined] current value gets the
    default and a defined one is kept.  A falsy argument changes
    nothing. *)
Theorem loadSettings_key_by_key :
  forall (StringToNumber : string -> number) (s current : object) (k : string),
    get (loadSettings StringToNumber (Some s) current) k
    = match entry_for customSettings k with
      | Some e => loadedValue StringToNumber s (get current k) e
      | None => get current k
      end
    /\ loadSettings StringToNumber None current = current.
Proof.
  intros StringToNumber s current k. split; [|reflexivity].
  apply loadSettingsFrom_get. apply customSettings_keys_distinct.
Qed.

(** X14. Loading the same settings twice is the same as loading them
    once. *)
Theorem loadSettings_idempotent :
  forall (StringToNumber : string -> number) (s : option object)
         (current : object) (k : string),
    get (loadSettings StringToNumber s
           (loadSettings StringToNumber s current)) k
    = get (loadSettings StringToNumber s current) k.
Proof.
  intros StringToNumber [s|] current k; [|reflexivity].
  unfold loadSettings.
  rewrite !(loadSettingsFrom_get StringToNumber customSettings
              customSettings_keys_distinct).
  destruct (entry_for customSettings k) as [e|] eqn:He; [|reflexivity].
  assert (Hk : varId e = k).
  { unfold entry_for in He. apply find_some in He.
    apply String.eqb_eq. apply He. }
  unfold loadedValue.
  destruct (negb (is_undefined (get s (varId e)))); [reflexivity|].
  destruct (is_undefined (get current k)) eqn:Hcur.
  - destruct (is_undefined (default e)); reflexivity.
  - rewrite Hcur. reflexivity.
Qed.

(** X15. A saved snapshot whose checkbox keys hold booleans and whose
    slider keys hold numbers is restored exactly by [loadSettings],
    whatever [fetchRetrySettings] holds at that time. *)
Theorem saveSettings_loadSettings_round_trip :
  forall (StringToNumber : string -> number) (snapshot current : object)
         (e : setting),
    well_typed customSettings snapshot ->
    In e customSettings ->
    get (loadSettings StringToNumber (Some (saveSettings snapshot)) current)
        (varId e)
    = get snapshot (varId e).
Proof.
  intros StringToNumber snapshot current e Htyped Hin.
  unfold loadSettings, saveSettings.
  rewrite (loadSettingsFrom_get StringToNumber customSettings
             customSettings_keys_distinct).
  rewrite (entry_for_In customSettings e customSettings_keys_distinct Hin).
  unfold loadedValue.
  pose proof (Htyped e Hin) as Hty.
  rewrite (coerce_well_typed StringToNumber e _ Hty).
  destruct Hty as [[_ [b ->]]|[_ [n ->]]]; reflexivity.
Qed.

Lemma initial_settings_well_typed : well_typed customSettings fetchRetrySettings0.
Proof.
  intros e Hin. cbn in Hin.
  repeat (destruct Hin as [<-|Hin];
          [first [left; split; [reflexivity|eexists; reflexivity]
                 |right; split; [reflexivity|eexists; reflexivity]]|]).
  contradiction.
Qed.

Lemma saveSettings_loadSettings_round_trip_witness :
  get (loadSettings digitsToNumber (Some (saveSettings fetchRetrySettings0)) sparseStore)
      "maxRetries"
  = VNumber (Finite 5).
Proof.
  apply (saveSettings_loadSettings_round_trip
           digitsToNumber fetchRetrySettings0 sparseStore
           (sliderSetting "maxRetries" 5 0 10 1)).
  - exact initial_settings_well_typed.
  - cbn. tauto.
Defined.

(** X16. After the settings part of [initExtension], every key of
    [customSettings] is defined in the stored settings (its stored value,
    or the default where the store had none), and [fetchRetrySettings]
    holds the conversion of that value, whatever it held before. *)
Theorem initExtension_installs_stored_or_default :
  forall (StringToNumber : string -> number) (stored : option object)
         (current : object) (e : setting),
    In e customSettings ->
    let before := match stored with Some o => o | None => defaultSettings end in
    let after := initExtensionSettings StringToNumber stored current in
    get (fst after) (varId e)
    = (if is_undefined (get before (varId e)) then default e
       else get before (varId e))
    /\ is_undefined (get (fst after) (varId e)) = false
    /\ get (snd after) (varId e)
       = coerce StringToNumber e (get (fst after) (varId e)).
Proof.
  intros StringToNumber stored current e Hin before after.
  destruct (defaultSettings_get e Hin) as (Hdef & Hdefined & Hkey).
  assert (Hstored : get (fst after) (varId e)
                    = if is_undefined (get before (varId e)) then default e
                      else get before (varId e)).
  { subst after. unfold initExtensionSettings. cbn [fst].
    fold before. unfold ensureDefaults. rewrite fill_get, Hkey, Hdef.
    reflexivity. }
  assert (Hnot : is_undefined (get (fst after) (varId e)) = false).
  { rewrite Hstored.
    destruct (is_undefined (get before (varId e))) eqn:Hu; assumption. }
  split; [exact Hstored|]. split; [exact Hnot|].
  subst after. unfold initExtensionSettings in *. cbn [fst snd] in *.
  unfold loadSettings.
  rewrite (loadSettingsFrom_get StringToNumber customSettings
             customSettings_keys_distinct).
  rewrite (entry_for_In customSettings e customSettings_keys_distinct Hin).
  unfold loadedValue. rewrite Hnot. reflexivity.
Qed.

(** A store that holds a retry count of 1000 keeps it: the slider's
    maximum of 10 plays no part. *)
Lemma initExtension_installs_stored_or_default_witness :
  get (snd (initExtensionSettings digitsToNumber (Some sparseStore) fetchRetrySettings0))
      "maxRetries"
  = VNumber (Finite 1000).
Proof.
  apply (proj2 (proj2 (initExtension_installs_stored_or_default
                         digitsToNumber (Some sparseStore) fetchRetrySettings0
                         (sliderSetting "maxRetries" 5 0 10 1)
                         ltac:(cbn; tauto)))).
Defined.

(** * Runs that end in an abort or in exhaustion *)

Section Endings.

Variable settings : Cfg.t.
Variable w : world.

(** From any state, [n] retryable failures followed by an iteration
    whose top finds the caller's signal aborted. *)
Lemma fetchLoop_aborts_after (n : nat) :
  forall (fuel : nat) (st : loop_state),
    Z.of_nat (attempt st + n) <= Cfg.maxRetries settings ->
    (n < fuel)%nat ->
    (forall j, (attempt st <= j < attempt st + n)%nat ->
               retryableFailure settings (attempts w j) = true) ->
    aborted_at_start (attempts w (attempt st + n)) = true ->
    exists tr,
      fetchLoop settings w fuel st = (tr, Thrown (Some abortError))
      /\ fetches tr = seq (attempt st) n
      /\ count is_wait tr = n
      /\ count is_error_notification tr = 0%nat.
Proof.
  induction n as [|m IH]; intros fuel st Hmax Hfuel Hfail Hstart.
  - destruct fuel as [|fuel]; [lia|]. rewrite Nat.add_0_r in *.
    rewrite fetchLoop_enter by lia.
    rewrite loopBody_aborted by exact Hstart.
    exists []. repeat split.
  - destruct fuel as [|fuel]; [lia|].
    rewrite fetchLoop_retry by (try (apply Hfail); lia). cbv zeta.
    set (o := raceAttempt settings (attempts w (attempt st))) in *.
    set (st' := mkState (S (attempt st)) (lastErrorOnRetry st o)
                        (responseForDelay st o)).
    set (evs := fst (handleRetry settings (failureError o)
                                 (responseForDelay st o) (attempt st))).
    assert (Hidx : (attempt st' + m = attempt st + S m)%nat)
      by (unfold st'; cbn [attempt]; lia).
    specialize (IH fuel st'). rewrite Hidx in IH.
    change (attempt st') with (S (attempt st)) in IH.
    destruct IH as (tr & Hrun & Hf & Hw & He); try assumption; try lia.
    { intros j Hj. apply Hfail. lia. }
    rewrite Hrun. unfold prepend. cbn [fst snd].
    exists ((EvFetch (attempt st) :: evs) ++ tr).
    split; [reflexivity|].
    change (EvFetch (attempt st) :: evs) with ([EvFetch (attempt st)] ++ evs).
    rewrite !fetches_app, !count_app. unfold evs.
    rewrite handleRetry_fetches, handleRetry_waits_once,
      handleRetry_no_error_notification, Hf, Hw, He.
    repeat split.
Qed.

Lemma responseForDelay_latest (st : loop_state) :
  lastResponse st = latestResponse settings w (attempt st) ->
  responseForDelay st (raceAttempt settings (attempts w (attempt st)))
  = latestResponse settings w (S (attempt st)).
Proof.
  intros Hlast. cbn [latestResponse].
  destruct (raceAttempt settings (attempts w (attempt st)));
    [reflexivity|exact Hlast].
Qed.

(** When the budget runs out, the error notification is given the
    response of the most recent attempt that resolved. *)
Lemma fetchLoop_exhaustion_latest (n : nat) :
  forall (fuel : nat) (st : loop_state),
    Z.of_nat (attempt st) + Z.of_nat n = Cfg.maxRetries settings ->
    (n < fuel)%nat ->
    lastResponse st = latestResponse settings w (attempt st) ->
    (forall k, (attempt st <= k <= attempt st + n)%nat ->
               retryableFailure settings (attempts w k) = true) ->
    exists pre,
      fst (fetchLoop settings w fuel st)
      = pre ++ [EvErrorNotification
                  (Some (failureError
                           (raceAttempt settings (attempts w (attempt st + n)))))
                  (latestResponse settings w (S (attempt st + n)))].
Proof.
  induction n as [|m IH]; intros fuel st Hmax Hfuel Hlast Hfail.
  - destruct fuel as [|fuel]; [lia|]. rewrite Nat.add_0_r.
    rewrite fetchLoop_last by (try (apply Hfail); lia). cbv zeta.
    rewrite responseForDelay_latest by exact Hlast.
    exists [EvFetch (attempt st)]. reflexivity.
  - destruct fuel as [|fuel]; [lia|].
    rewrite fetchLoop_retry by (try (apply Hfail); lia). cbv zeta.
    set (o := raceAttempt settings (attempts w (attempt st))) in *.
    set (st' := mkState (S (attempt st)) (lastErrorOnRetry st o)
                        (responseForDelay st o)).
    set (evs := fst (handleRetry settings (failureError o)
                                 (responseForDelay st o) (attempt st))).
    assert (Hidx : (attempt st' + m = attempt st + S m)%nat)
      by (unfold st'; cbn [attempt]; lia).
    specialize (IH fuel st'). rewrite Hidx in IH.
    change (attempt st') with (S (attempt st)) in IH.
    destruct IH as (pre & Hrun); try lia.
    { unfold st'. cbn [lastResponse attempt]. unfold o.
      apply responseForDelay_latest. exact Hlast. }
    { intros j Hj. apply Hfail. lia. }
    unfold prepend. cbn [fst]. rewrite Hrun.
    exists ((EvFetch (attempt st) :: evs) ++ pre).
    rewrite <- app_assoc. reflexivity.
Qed.

End Endings.

(** X17. If the first [k] attempts of a call are retryable failures and
    the caller's signal is found aborted at the top of iteration
    [k <= maxRetries], as after an abort during the wait, the call throws
    the abort failure after exactly [k] native calls and [k] waits, and
    the error notification is not invoked. *)
Theorem abort_found_after_retries :
  forall (settings : Cfg.t) (w : world) (k : nat),
    Cfg.enabled settings = true ->
    aborted_at_entry w = false ->
    Z.of_nat k <= Cfg.maxRetries settings ->
    (forall j, (j < k)%nat -> retryableFailure settings (attempts w j) = true) ->
    aborted_at_start (attempts w k) = true ->
    snd (windowFetch settings w) = Thrown (Some abortError)
    /\ fetches (fst (windowFetch settings w)) = seq 0 k
    /\ count is_wait (fst (windowFetch settings w)) = k
    /\ count is_error_notification (fst (windowFetch settings w)) = 0%nat.
Proof.
  intros settings w k Hen Hentry Hle Hfail Hstart.
  unfold windowFetch. rewrite Hen, Hentry. cbn [negb].
  destruct (fetchLoop_aborts_after settings w k
              (Z.to_nat (Cfg.maxRetries settings + 1)) initial_state)
    as (tr & Hrun & Hf & Hw & He);
    try assumption; cbn [attempt initial_state Nat.add]; try lia.
  - intros j Hj. apply Hfail. lia.
  - rewrite Hrun. cbn [fst snd]. repeat split; assumption.
Qed.

Lemma abort_found_after_retries_witness :
  snd (windowFetch Cfg.default abortedWhileWaiting) = Thrown (Some abortError)
  /\ fetches (fst (windowFetch Cfg.default abortedWhileWaiting)) = [0%nat]
  /\ count is_wait (fst (windowFetch Cfg.default abortedWhileWaiting)) = 1%nat
  /\ count is_error_notification
       (fst (windowFetch Cfg.default abortedWhileWaiting)) = 0%nat.
Proof.
  apply (abort_found_after_retries Cfg.default abortedWhileWaiting 1);
    try reflexivity.
  - vm_compute. discriminate.
  - intros j Hj. destruct j as [|j]; [reflexivity|lia].
Defined.

(** X18. When every attempt of a call is a retryable failure, the error
    notification is given the error of the last attempt together with the
    response of the most recent attempt that resolved, if any: a final
    timeout or network failure that follows an earlier 429 or 5xx is
    reported with that earlier response. *)
Theorem exhaustion_notifies_latest_response :
  forall (settings : Cfg.t) (w : world) (N : nat),
    Cfg.enabled settings = true ->
    aborted_at_entry w = false ->
    Cfg.maxRetries settings = Z.of_nat N ->
    (forall k, (k <= N)%nat -> retryableFailure settings (attempts w k) = true) ->
    exists pre,
      fst (windowFetch settings w)
      = pre ++ [EvErrorNotification
                  (Some (failureError (raceAttempt settings (attempts w N))))
                  (latestResponse settings w (S N))].
Proof.
  intros settings w N Hen Hentry Hmax Hfail.
  unfold windowFetch. rewrite Hen, Hentry. cbn [negb].
  apply (fetchLoop_exhaustion_latest settings w N _ initial_state).
  - cbn [attempt initial_state]. lia.
  - lia.
  - reflexivity.
  - intros k Hk. apply Hfail. cbn [attempt initial_state] in Hk. lia.
Qed.

(** A 429, then a network failure on the last attempt: the notification
    gets the network error and the stale 429 response, and reads
    [Rate limited (429)]. *)
Lemma exhaustion_notifies_latest_response_witness :
  (exists pre,
      fst (windowFetch oneRetrySettings staleWorld)
      = pre ++ [EvErrorNotification (Some networkError)
                                    (Some r429_retry_after_20)])
  /\ showErrorNotification Cfg.default (Some networkError)
                           (Some r429_retry_after_20)
     = Some "Rate limited (429): Too many requests"%string.
Proof.
  split; [|reflexivity].
  apply (exhaustion_notifies_latest_response oneRetrySettings staleWorld 1);
    try reflexivity.
  intros k Hk. destruct k as [|[|k]]; [reflexivity|reflexivity|lia].
Defined.



(** * Applying the stored settings *)

Lemma applyAllSettingsFrom_get (table : list setting) :
  forall (stored current : object) (k : string),
    get (applyAllSettingsFrom table stored current) k
    = if existsb (fun e => String.eqb (varId e) k) table
      then get stored k
      else get current k.
Proof.
  unfold applyAllSettingsFrom.
  induction table as [|e rest IH]; intros stored current k;
    cbn [fold_left existsb].
  - reflexivity.
  - rewrite IH.
    destruct (String.eqb (varId e) k) eqn:Hk; cbn [orb].
    + apply String.eqb_eq in Hk. subst k. rewrite get_set_same.
      destruct (existsb (fun e0 => String.eqb (varId e0) (varId e)) rest);
        reflexivity.
    + apply String.eqb_neq in Hk. rewrite get_set_other by exact Hk.
      reflexivity.
Qed.

(** X20. [applyAllSettings] gives every key of [customSettings] the
    stored value as it is, with no conversion, and leaves the other keys
    alone; so after [loadSettings] has converted a stored value, applying
    the same store puts the unconverted value back. *)
Theorem applyAllSettings_copies_stored_values :
  forall (StringToNumber : string -> number) (stored current : object)
         (k : string),
    get (applyAllSettings stored current) k
    = (if existsb (fun e => String.eqb (varId e) k) customSettings
       then get stored k
       else get current k)
    /\ (forall e, In e customSettings ->
                  get (applyAllSettings stored
                         (loadSettings StringToNumber (Some stored) current))
                      (varId e)
                  = get stored (varId e)).
Proof.
  intros StringToNumber stored current k. split.
  - apply applyAllSettingsFrom_get.
  - intros e Hin. unfold applyAllSettings.
    rewrite applyAllSettingsFrom_get.
    replace (existsb (fun e0 => String.eqb (varId e0) (varId e)) customSettings)
      with true; [reflexivity|].
    symmetry. apply existsb_exists. exists e.
    split; [exact Hin|apply String.eqb_refl].
Qed.

(** A delay stored as the string "250" is a number after [loadSettings]
    and the string again after [applyAllSettings]. *)
Lemma applyAllSettings_copies_stored_values_witness :
  get (loadSettings digitsToNumber (Some sparseStore) fetchRetrySettings0)
      "retryDelay"
  = VNumber (Finite 250)
  /\ get (applyAllSettings sparseStore
            (loadSettings digitsToNumber (Some sparseStore) fetchRetrySettings0))
         "retryDelay"
     = VString "250".
Proof.
  split; [reflexivity|].
  apply (proj2 (applyAllSettings_copies_stored_values
                  digitsToNumber sparseStore fetchRetrySettings0 "retryDelay")
               (sliderSetting "retryDelay" 5000 100 60000 100)).
  cbn. tauto.
Defined.
